(** * Capability negotiation of the Teams client SDK

    A shallow embedding of [packages/teams-js/src/public/runtime.ts]: the
    runtime capability registry, the legacy baseline, the version threshold
    table and the back-compat generator, together with the parts of the SDK
    that the registry is used with (support queries, the initialization and
    frame-context guard, the message correlation engine, object freezing). *)

From Stdlib Require Import ZArith NArith Ascii String List Bool Lia.
From stdpp Require Import gmap strings list pretty.

Local Open Scope string_scope.
Local Open Scope list_scope.

Set Warnings "-register-all".

(** ** JavaScript values

    The values that the registry objects, the message arguments and the
    error payloads are made of. An object keeps its own properties in
    insertion order, which is the order [Object.keys] and the spread syntax
    enumerate them in, and records whether [Object.freeze] was applied to
    it. *)

Inductive value : Type :=
| VUndefined : value
| VNull : value
| VBool (b : bool) : value
| VNumber (n : Z) : value
| VObject (frozen : bool) (props : list (string * value)) : value.

(** An object literal [{ k1: v1, ... }]: a new object, not frozen. *)
Abbreviation obj := (VObject false).

(** The own properties of a value; a primitive has none. *)
Definition propsOf (v : value) : list (string * value) :=
  match v with
  | VObject _ props => props
  | _ => []
  end.

(** The value of the own property [k] in a property list, [undefined] when
    absent. *)
Fixpoint lookupProp (k : string) (o : list (string * value)) : value :=
  match o with
  | [] => VUndefined
  | (k', v) :: o' => if String.eqb k' k then v else lookupProp k o'
  end.

(** [k in o] for own properties. *)
Fixpoint hasProp (k : string) (o : list (string * value)) : bool :=
  match o with
  | [] => false
  | (k', _) :: o' => String.eqb k' k || hasProp k o'
  end.

(** Defining the data property [k]: an existing key keeps its place and
    takes the new value, a new key goes last. *)
Fixpoint setProp (k : string) (v : value) (o : list (string * value))
  : list (string * value) :=
  match o with
  | [] => [(k, v)]
  | (k', v') :: o' =>
      if String.eqb k' k then (k, v) :: o' else (k', v') :: setProp k v o'
  end.

(** Removing the own property [k]. *)
Fixpoint removeProp (k : string) (o : list (string * value))
  : list (string * value) :=
  match o with
  | [] => []
  | (k', v') :: o' =>
      if String.eqb k' k then o' else (k', v') :: removeProp k o'
  end.

(** Copying the own enumerable properties of [src] onto [dst], in order. *)
Definition copyProps (dst src : list (string * value)) : list (string * value) :=
  fold_left (fun acc kv => setProp (fst kv) (snd kv) acc) src dst.

(** The object literal [{ ...a }]. *)
Definition spread1 (a : value) : value :=
  obj (copyProps [] (propsOf a)).

(** The object literal [{ ...a, ...b }]. *)
Definition spread2 (a b : value) : value :=
  obj (copyProps (copyProps [] (propsOf a)) (propsOf b)).

(** [Object.keys] of a record keyed by strings. *)
Definition Object_keys {A : Type} (o : list (string * A)) : list string :=
  map fst o.

(** [Array.prototype.includes] on an array of strings. *)
Definition includes (l : list string) (x : string) : bool :=
  existsb (String.eqb x) l.

(** ** Exceptions and results *)

Inductive exn : Type :=
| TypeError : exn
| Error (message : string) : exn
| NotSupportedOnPlatform : exn
| InvalidArguments : exn.

Inductive result (A : Type) : Type :=
| Ok (a : A) : result A
| Throw (e : exn) : result A.

Arguments Ok {A} a.
Arguments Throw {A} e.

#[global] Instance result_ret : MRet result := fun A a => Ok a.

#[global] Instance result_bind : MBind result := fun A B f r =>
  match r with
  | Ok a => f a
  | Throw e => Throw e
  end.

(** The property read [v.k]: a [TypeError] on [undefined] and [null],
    [undefined] on the other primitives. *)
Definition getProp (k : string) (v : value) : result value :=
  match v with
  | VUndefined | VNull => Throw TypeError
  | VObject _ props => Ok (lookupProp k props)
  | _ => Ok VUndefined
  end.

(** The same read where the receiver is known to be an object. *)
Definition field (k : string) (v : value) : value := lookupProp k (propsOf v).

(** ** Numbers returned by the version comparator *)

Inductive number : Type :=
| NaN : number
| Num (z : Z) : number.

(** [x >= 0] and [x <= 0]; both are false on [NaN]. *)
Definition ge0 (x : number) : bool :=
  match x with NaN => false | Num z => (0 <=? z)%Z end.

Definition le0 (x : number) : bool :=
  match x with NaN => false | Num z => (z <=? 0)%Z end.

(** ** runtime.ts *)

(** [IRuntime]: an object with [apiVersion], optionally [isLegacyTeams], and
    [supports], itself an object. A registry is kept as the object that it is
    at run time, since [applyRuntimeConfig] freezes it and the support
    queries walk it; the interface's fields are reads of its properties. *)
Abbreviation IRuntime := value.

Definition apiVersion (r : value) : value := field "apiVersion" r.
Definition isLegacyTeams (r : value) : value := field "isLegacyTeams" r.
Definition supports (r : value) : value := field "supports" r.

Definition isObject (v : value) : bool :=
  match v with VObject _ _ => true | _ => false end.

Record ICapabilityReqs : Type := {
  capability : value;
  hostClientTypes : list string
}.

(** The members of the [HostClientType] enumeration that runtime.ts names.
    The enumeration is declared in [public/constants]; its string values are
    taken as they are. *)
Record HostClientTypeEnum : Type := {
  desktop : string;
  web : string;
  android : string;
  ios : string;
  rigel : string;
  surfaceHub : string;
  teamsRoomsWindows : string;
  teamsRoomsAndroid : string;
  teamsPhones : string;
  teamsDisplays : string
}.

(** The module-level default [runtime]. *)
Definition runtime : IRuntime := obj [
  ("apiVersion", VNumber 1);
  ("supports", obj [
    ("appInstallDialog", VUndefined);
    ("calendar", VUndefined);
    ("call", VUndefined);
    ("chat", obj [("conversation", VUndefined)]);
    ("dialog", obj [("bot", VUndefined); ("update", VUndefined)]);
    ("location", VUndefined);
    ("logs", VUndefined);
    ("mail", VUndefined);
    ("media", VUndefined);
    ("meeting", VUndefined);
    ("meetingRoom", VUndefined);
    ("menus", VUndefined);
    ("monetization", VUndefined);
    ("notifications", VUndefined);
    ("pages", obj [
       ("appButton", VUndefined);
       ("tabs", VUndefined);
       ("config", VUndefined);
       ("backStack", VUndefined);
       ("fullTrust", VUndefined)]);
    ("people", VUndefined);
    ("remoteCamera", VUndefined);
    ("sharing", VUndefined);
    ("teams", obj [("fullTrust", obj [("joinedTeams", VUndefined)])]);
    ("teamsCore", VUndefined);
    ("video", VUndefined)
  ])
].

Definition teamsRuntimeConfig : IRuntime := obj [
  ("apiVersion", VNumber 1);
  ("isLegacyTeams", VBool true);
  ("supports", obj [
    ("appInstallDialog", obj []);
    ("appEntity", obj []);
    ("call", obj []);
    ("chat", obj [("conversation", obj [])]);
    ("dialog", obj [("bot", obj []); ("update", obj [])]);
    ("files", obj []);
    ("logs", obj []);
    ("media", obj []);
    ("meeting", obj []);
    ("meetingRoom", obj []);
    ("menus", obj []);
    ("monetization", obj []);
    ("notifications", obj []);
    ("pages", obj [
       ("appButton", obj []);
       ("tabs", obj []);
       ("config", obj []);
       ("backStack", obj []);
       ("fullTrust", obj [])]);
    ("remoteCamera", obj []);
    ("sharing", obj []);
    ("teams", obj [("fullTrust", obj [])]);
    ("teamsCore", obj []);
    ("video", obj [])
  ])
].

(** [versionConstants[versionNumber]] for a key of the table. *)
Fixpoint recordGet {A : Type} (k : string) (o : list (string * list A)) : list A :=
  match o with
  | [] => []
  | (k', v) :: o' => if String.eqb k' k then v else recordGet k o'
  end.

Section BackCompat.

(** What runtime.ts imports: the enumeration of host client types, the
    version comparator of [internal/utils] and the host client type that
    [GlobalVars] holds when the generator runs. *)
Variable HostClientType : HostClientTypeEnum.
Variable compareSDKVersions : string -> string -> number.
Variable hostClientType : string.

Definition v1HostClientTypes : list string := [
  desktop HostClientType;
  web HostClientType;
  android HostClientType;
  ios HostClientType;
  rigel HostClientType;
  surfaceHub HostClientType;
  teamsRoomsWindows HostClientType;
  teamsRoomsAndroid HostClientType;
  teamsPhones HostClientType;
  teamsDisplays HostClientType
].

Definition versionConstants : list (string * list ICapabilityReqs) := [
  ("1.9.0", [
     {| capability := obj [("location", obj [])];
        hostClientTypes := v1HostClientTypes |}]);
  ("2.0.0", [
     {| capability := obj [("people", obj [])];
        hostClientTypes := v1HostClientTypes |}]);
  ("2.0.1", [
     {| capability :=
          obj [("teams", obj [("fullTrust", obj [("joinedTeams", obj [])])])];
        hostClientTypes := [
          android HostClientType;
          teamsRoomsAndroid HostClientType;
          teamsPhones HostClientType;
          teamsDisplays HostClientType] |}])
].

(** The inner [forEach]: one requirement of a threshold entry. *)
Definition applyCapabilityReqs (newSupports : value) (capabilityReqs : ICapabilityReqs)
  : value :=
  if includes (hostClientTypes capabilityReqs) hostClientType
  then spread2 newSupports (capability capabilityReqs)
  else newSupports.

(** The outer [forEach]: one key of the threshold table. *)
Definition applyVersion (highestSupportedVersion : string)
    (newSupports : value) (versionNumber : string) : value :=
  if ge0 (compareSDKVersions highestSupportedVersion versionNumber)
  then fold_left applyCapabilityReqs (recordGet versionNumber versionConstants) newSupports
  else newSupports.

Definition generateBackCompatRuntimeConfig (highestSupportedVersion : string) : IRuntime :=
  let newSupports := spread1 (supports teamsRuntimeConfig) in
  let newSupports :=
    fold_left (applyVersion highestSupportedVersion)
              (Object_keys versionConstants) newSupports in
  let backCompatRuntimeConfig : IRuntime := obj [
    ("apiVersion", VNumber 1);
    ("isLegacyTeams", VBool true);
    ("supports", newSupports)
  ] in
  backCompatRuntimeConfig.

End BackCompat.

(** ** The version comparator of [internal/utils] *)

Module Utils.

Definition digitValue (c : ascii) : option N :=
  let n := N_of_ascii c in
  if ((48 <=? n) && (n <=? 57))%N then Some (n - 48)%N else None.

Fixpoint parseDigits (acc : N) (s : string) : option N :=
  match s with
  | EmptyString => Some acc
  | String c s' =>
      match digitValue c with
      | Some d => parseDigits (10 * acc + d)%N s'
      | None => None
      end
  end.

(** A segment is a non-empty run of decimal digits. *)
Definition parseSegment (s : string) : option N :=
  match s with
  | EmptyString => None
  | _ => parseDigits 0%N s
  end.

(** [s.split('.')]. *)
Fixpoint splitDots (s : string) : list string :=
  match s with
  | EmptyString => [EmptyString]
  | String c s' =>
      if Ascii.eqb c "."%char then EmptyString :: splitDots s'
      else match splitDots s' with
           | [] => [String c EmptyString]
           | x :: xs => String c x :: xs
           end
  end.

Fixpoint parseSegments (l : list string) : option (list N) :=
  match l with
  | [] => Some []
  | s :: l' =>
      match parseSegment s, parseSegments l' with
      | Some n, Some ns => Some (n :: ns)
      | _, _ => None
      end
  end.

Definition parseVersion (s : string) : option (list N) :=
  parseSegments (splitDots s).

(** Missing segments default to 0. *)
Definition padParts (n : nat) (l : list N) : list N :=
  l ++ repeat 0%N (n - length l).

(** Segment by segment, left to right: the first numeric difference
    decides, and running out of segments means equal. *)
Fixpoint compareParts (a b : list N) : Z :=
  match a, b with
  | x :: a', y :: b' =>
      if (x =? y)%N then compareParts a' b'
      else if (y <? x)%N then 1%Z else (-1)%Z
  | _, _ => 0%Z
  end.

(** Modelled from the spec: [compareSDKVersions] of [internal/utils], which
    runtime.ts imports and this repository fragment does not hold. Section
    4.1: two version strings of the form MAJOR.MINOR.PATCH, missing
    segments default to 0; the result is negative, zero or positive;
    the comparison is numeric per segment, left to right, the first
    difference decides, and exhausting all segments yields zero. For a
    string that is not a dotted sequence of numbers the spec gives no
    ordering: the model answers [NaN], which no threshold test accepts. *)
Definition compareSDKVersions (v1 v2 : string) : number :=
  match parseVersion v1, parseVersion v2 with
  | Some p1, Some p2 =>
      let n := Nat.max (length p1) (length p2) in
      Num (compareParts (padParts n p1) (padParts n p2))
  | _, _ => NaN
  end.

(** Modelled from the spec: [deepFreeze] of [internal/utils], which
    runtime.ts imports and this repository fragment does not hold. Section
    4.3: the published registry is a deeply-frozen copy of the
    configuration, where deeply frozen means that every object reachable
    from the root is immutable. The copy has the properties of the
    original, in the same order, and every object in it is frozen. *)
Fixpoint deepFreeze (v : value) : value :=
  match v with
  | VObject _ props =>
      VObject true (map (fun '(k, v') => (k, deepFreeze v')) props)
  | _ => v
  end.

End Utils.

(** ** The state of the library

    [currentRuntime] is the module-level variable [runtime] of runtime.ts
    (the definition [runtime] above is the value it is declared with);
    the other fields are the initialization lifecycle and the message
    correlation engine, which live in modules that this repository fragment
    does not hold. *)

(** Modelled from the spec: the initialization lifecycle (section 4.6),
    Uninitialized, Initializing, Initialized; becoming initialized
    establishes the frame context. *)
Inductive Lifecycle : Type :=
| Uninitialized : Lifecycle
| Initializing : Lifecycle
| Initialized (frameContext : string) : Lifecycle.

(** Modelled from the spec: the deferred result of a send-and-await call
    (section 4.5), pending until the response arrives, then resolved with the
    success value or rejected with the error payload. *)
Inductive Settlement : Type :=
| Pending : Settlement
| Resolved (v : value) : Settlement
| Rejected (e : value) : Settlement.

(** Modelled from the spec: the envelopes of section 6, a request
    [{ id, func, args }] and a response [{ id, args }]. *)
Record Message : Type := {
  msg_id : N;
  msg_func : string;
  msg_args : list value
}.

Record Response : Type := {
  resp_id : N;
  resp_args : list value
}.

(** Modelled from the spec: the message correlation engine (sections 3 and
    4.5), the next correlation identifier, the pending requests keyed by
    identifier, the deferred result of each request, and what was handed to
    the transport, in call order. *)
Record Engine : Type := {
  nextMessageId : N;
  pendingRequests : gset N;
  promises : gmap N Settlement;
  outbox : list Message
}.

Record State : Type := {
  currentRuntime : IRuntime;
  lifecycle : Lifecycle;
  engine : Engine
}.

Definition initialEngine : Engine := {|
  nextMessageId := 0;
  pendingRequests := ∅;
  promises := ∅;
  outbox := []
|}.

(** The state when the modules have been loaded and nothing was called. *)
Definition initialState : State := {|
  currentRuntime := runtime;
  lifecycle := Uninitialized;
  engine := initialEngine
|}.

(** [applyRuntimeConfig]: [runtime = deepFreeze(runtimeConfig)]. *)
Definition applyRuntimeConfig (runtimeConfig : IRuntime) (st : State) : State := {|
  currentRuntime := Utils.deepFreeze runtimeConfig;
  lifecycle := lifecycle st;
  engine := engine st
|}.

(** ** Capability support queries *)

(** Modelled from the spec: the [isSupported] functions of the capability
    modules ([public/dialog] and the like), of which this repository
    fragment holds the tests only. Sections 3 and 6: a read-only query along
    a capability path; a capability or sub-capability is supported iff its
    key holds a non-undefined object, an empty object included; the query
    does not throw and answers false for an unknown or unpopulated path. *)
Fixpoint supportedFrom (path : list string) (v : value) : result bool :=
  match path with
  | [] => Ok (isObject v)
  | k :: path' =>
      if isObject v then x ← getProp k v; supportedFrom path' x
      else Ok false
  end.

(** Modelled from the spec: the query is made against the live registry,
    along [supports] and then the capability path. *)
Definition isSupportedPath (path : list string) (st : State) : result bool :=
  supportedFrom ("supports" :: path) (currentRuntime st).

(** Modelled from the spec: the queries that the dialog tests call, each
    with the capability path of its name. *)
Module dialog.
Definition isSupported : State -> result bool := isSupportedPath ["dialog"].
Module update.
Definition isSupported : State -> result bool :=
  isSupportedPath ["dialog"; "update"].
End update.
Module bot.
Definition isSupported : State -> result bool :=
  isSupportedPath ["dialog"; "bot"].
End bot.
End dialog.

(** The value found by following [path] down from [v]; [undefined] as soon
    as a key is missing or the receiver is not an object. *)
Fixpoint valueAt (path : list string) (v : value) : value :=
  match path with
  | [] => v
  | k :: path' => valueAt path' (field k v)
  end.

(** ** Writes to an object tree

    What an assignment [target.k = v] or a [delete target.k] does to the
    object [target], in strict or in sloppy mode: a frozen object refuses it
    (a [TypeError] in strict mode, nothing at all otherwise). *)

Inductive mutation : Type :=
| Assign (k : string) (v : value) : mutation
| Delete (k : string) : mutation.

Definition applyMutation (m : mutation) (props : list (string * value))
  : list (string * value) :=
  match m with
  | Assign k v => setProp k v props
  | Delete k => removeProp k props
  end.

Definition mutateObject (strict : bool) (m : mutation) (target : value) : result value :=
  match target with
  | VUndefined | VNull => Throw TypeError
  | VObject true _ => if strict then Throw TypeError else Ok target
  | VObject false props => Ok (VObject false (applyMutation m props))
  | _ =>
      match m with
      | Assign _ _ => if strict then Throw TypeError else Ok target
      | Delete _ => Ok target
      end
  end.

(** The parent sees the object that its property [k] refers to as the write
    left it. *)
Fixpoint withChild (k : string) (child : value) (props : list (string * value))
  : list (string * value) :=
  match props with
  | [] => []
  | (k', v) :: props' =>
      if String.eqb k' k then (k', child) :: props'
      else (k', v) :: withChild k child props'
  end.

(** The write [root.p1. ... .pn.k = v] (or the [delete]), as seen from
    [root]: the result is the tree that a reader of [root] finds
    afterwards. *)
Fixpoint mutateAt (strict : bool) (path : list string) (m : mutation) (root : value)
  : result value :=
  match path with
  | [] => mutateObject strict m root
  | k :: path' =>
      child ← getProp k root;
      child' ← mutateAt strict path' m child;
      Ok (match root with
          | VObject fr props => VObject fr (withChild k child' props)
          | _ => root
          end)
  end.

(** Every object of the tree is frozen. *)
Fixpoint deeplyFrozen (v : value) : bool :=
  match v with
  | VObject fr props => fr && forallb (fun '(_, v') => deeplyFrozen v') props
  | _ => true
  end.

(** The tree without its frozen marks: what a reader finds in it. *)
Fixpoint content (v : value) : value :=
  match v with
  | VObject _ props => VObject false (map (fun '(k, v') => (k, content v')) props)
  | _ => v
  end.


(** ** JSON text of strings and of arrays of strings *)

Module JSON.

Definition quote : ascii := ascii_of_N 34.
Definition backslash : ascii := ascii_of_N 92.

Definition hexDigit (n : N) : ascii :=
  if (n <? 10)%N then ascii_of_N (48 + n) else ascii_of_N (87 + n).

(** A character inside a JSON string: the quote, the backslash and the
    control characters are escaped, every other character stands for
    itself. *)
Definition escapeChar (c : ascii) : string :=
  let n := N_of_ascii c in
  if (n =? 34)%N then String backslash (String quote EmptyString)
  else if (n =? 92)%N then String backslash (String backslash EmptyString)
  else if (n =? 8)%N then String backslash "b"
  else if (n =? 12)%N then String backslash "f"
  else if (n =? 10)%N then String backslash "n"
  else if (n =? 13)%N then String backslash "r"
  else if (n =? 9)%N then String backslash "t"
  else if (n <? 32)%N
       then String backslash
              ("u00" ++ String (hexDigit (n / 16)) (String (hexDigit (n mod 16)) EmptyString))
  else String c EmptyString.

Fixpoint escape (s : string) : string :=
  match s with
  | EmptyString => EmptyString
  | String c s' => escapeChar c ++ escape s'
  end.

(** [JSON.stringify] of a string. *)
Definition stringify (s : string) : string :=
  String quote (escape s ++ String quote EmptyString).

Fixpoint commaSeparated (l : list string) : string :=
  match l with
  | [] => EmptyString
  | [x] => x
  | x :: l' => x ++ "," ++ commaSeparated l'
  end.

(** [JSON.stringify] of an array of strings: the elements in order. *)
Definition stringifyArray (l : list string) : string :=
  "[" ++ commaSeparated (map stringify l) ++ "]".

End JSON.

(** ** The initialization and frame-context guard *)

(** The two messages, as the tests expect them. *)
Definition errorLibraryNotInitialized : string :=
  "The library has not yet been initialized".

Definition contextErrorMessage (expectedFrameContexts : list string) (frameContext : string)
  : string :=
  "This call is only allowed in following contexts: "
  ++ JSON.stringifyArray expectedFrameContexts
  ++ ". Current context: " ++ JSON.stringify frameContext ++ ".".

(** Modelled from the spec: the guard that every capability entry point runs
    first ([ensureInitialized] of [internal/internalAPIs]), of which this
    repository fragment holds the tests only. Sections 4.4, 4.6 and 7: a call
    made before initialization has completed fails with the fixed message; a
    context-restricted call made from a frame context outside its allow-list
    fails with a message that renders the allow-list and the observed
    context, in order. [None] as the allow-list stands for a call that is not
    context-restricted. *)
Definition ensureInitialized (st : State) (expectedFrameContexts : option (list string))
  : result unit :=
  match lifecycle st with
  | Initialized frameContext =>
      match expectedFrameContexts with
      | Some expected =>
          if includes expected frameContext then Ok tt
          else Throw (Error (contextErrorMessage expected frameContext))
      | None => Ok tt
      end
  | _ => Throw (Error errorLibraryNotInitialized)
  end.

(** ** The message correlation engine *)

(** Modelled from the spec: send-and-await (section 4.5). A fresh correlation
    identifier is allocated, a pending request is recorded under it, the
    message tagged with it goes to the transport, and the deferred result is
    the promise of that identifier. *)
Definition sendAndAwait (func : string) (args : list value) (e : Engine) : N * Engine :=
  let id := nextMessageId e in
  (id, {| nextMessageId := id + 1;
          pendingRequests := {[id]} ∪ pendingRequests e;
          promises := <[id := Pending]> (promises e);
          outbox := outbox e ++ [{| msg_id := id; msg_func := func; msg_args := args |}] |}).

Definition presentAndNonNull (v : value) : bool :=
  match v with
  | VUndefined | VNull => false
  | _ => true
  end.

(** Modelled from the spec: the transport's convention for a response
    [[error-or-undefined, ...successValues]] (sections 4.5 and 6): a first
    argument that is present and non-null is the error and the promise is
    rejected with it as it is; otherwise the promise is resolved with the
    value that follows. *)
Definition settle (args : list value) : Settlement :=
  match args with
  | err :: rest =>
      if presentAndNonNull err then Rejected err
      else Resolved (hd VUndefined rest)
  | [] => Resolved VUndefined
  end.

(** Modelled from the spec: response dispatch (section 4.5). The pending
    request of the response's identifier is looked up and removed and its
    promise settled; a response whose identifier has no pending request is
    ignored. *)
Definition handleResponse (r : Response) (e : Engine) : Engine :=
  if decide (resp_id r ∈ pendingRequests e)
  then {| nextMessageId := nextMessageId e;
          pendingRequests := pendingRequests e ∖ {[resp_id r]};
          promises := <[resp_id r := settle (resp_args r)]> (promises e);
          outbox := outbox e |}
  else e.

(** What can happen to the engine between a request and its response. *)
Inductive Event : Type :=
| Sent (func : string) (args : list value) : Event
| Received (r : Response) : Event.

Definition step (e : Engine) (ev : Event) : Engine :=
  match ev with
  | Sent func args => snd (sendAndAwait func args e)
  | Received r => handleResponse r e
  end.

Definition run (evs : list Event) (e : Engine) : Engine := fold_left step evs e.

(** The event is not a response to the request [id]. *)
Definition notResponseTo (id : N) (ev : Event) : bool :=
  match ev with
  | Sent _ _ => true
  | Received r => negb (resp_id r =? id)%N
  end.

(** ** Capability entry points *)

(** Modelled from the spec: what distinguishes one send-and-await entry
    point from another in the validation order of section 4.4, the frame
    contexts it is allowed in, the registry path it needs, its own check of
    the arguments, and the name and arguments of the message it sends. *)
Record Capability : Type := {
  allowedContexts : option (list string);
  capabilityPath : list string;
  validArguments : list value -> bool;
  func : string;
  messageArgs : list value -> list value
}.

Definition initialized (st : State) : bool :=
  match lifecycle st with
  | Initialized _ => true
  | _ => false
  end.

Definition withEngine (st : State) (e : Engine) : State := {|
  currentRuntime := currentRuntime st;
  lifecycle := lifecycle st;
  engine := e
|}.

(** Modelled from the spec: a capability call (sections 4.4 and 7). The
    checks run in this order: initialized, context allowed, capability
    supported, arguments valid; then the request is sent. A failed check
    throws and nothing is sent. *)
Definition capabilityCall (c : Capability) (args : list value) (st : State)
  : result N * State :=
  match ensureInitialized st (allowedContexts c) with
  | Throw e => (Throw e, st)
  | Ok _ =>
      match isSupportedPath (capabilityPath c) st with
      | Throw e => (Throw e, st)
      | Ok false => (Throw NotSupportedOnPlatform, st)
      | Ok true =>
          if validArguments c args
          then let '(id, e) := sendAndAwait (func c) (messageArgs c args) (engine st) in
               (Ok id, withEngine st e)
          else (Throw InvalidArguments, st)
      end
  end.

(** Modelled from the spec: an entry point of section 4.4, with the details
    that the location tests show for [location.getCurrentLocation], allowed
    in the content and task contexts, needing [location] in the registry,
    taking no argument and sending [location.getLocation] with the default
    location properties. *)
Module location.
Definition getCurrentLocation : Capability := {|
  allowedContexts := Some ["content"; "task"];
  capabilityPath := ["location"];
  validArguments := fun _ => true;
  func := "location.getLocation";
  messageArgs := fun _ =>
    [obj [("allowChooseLocation", VBool false); ("showMap", VBool false)]]
|}.
End location.


(** ** The generator over a store of objects

    The same code with the objects in a store: a value is a primitive or a
    reference to a cell, an object literal and a spread allocate a new cell,
    and property reads go through the store. This is the level at which one
    can ask whether a call writes into the objects it was given. *)

Module Heap.

(** The baseline as a value, before the name is taken by the reference to
    it. *)
Local Abbreviation baselineLiteral := teamsRuntimeConfig.

Definition loc : Type := nat.

Inductive hval : Type :=
| HUndefined : hval
| HNull : hval
| HBool (b : bool) : hval
| HNumber (n : Z) : hval
| HString (s : string) : hval
| HRef (l : loc) : hval.

Inductive cell : Type :=
| HObject (frozen : bool) (props : list (string * hval)) : cell
| HArray (elems : list hval) : cell.

Definition heap : Type := list cell.

(** A computation reads and extends the store and returns or throws. *)
Definition M (A : Type) : Type := heap -> result A * heap.

#[global] Instance M_ret : MRet M := fun A a h => (Ok a, h).

#[global] Instance M_bind : MBind M := fun A B f m h =>
  match m h with
  | (Ok a, h') => f a h'
  | (Throw e, h') => (Throw e, h')
  end.

Definition throw {A : Type} (e : exn) : M A := fun h => (Throw e, h).

(** A new cell, at the end of the store. *)
Definition alloc (c : cell) : M hval := fun h => (Ok (HRef (length h)), h ++ [c]).

Definition read (l : loc) : M cell := fun h =>
  match h !! l with
  | Some c => (Ok c, h)
  | None => (Throw TypeError, h)
  end.

Fixpoint foldM {A B : Type} (f : B -> A -> M B) (l : list A) (b : B) : M B :=
  match l with
  | [] => mret b
  | a :: l' => b' ← f b a; foldM f l' b'
  end.

(** Defining a data property, as [setProp] does on values. *)
Fixpoint setProp (k : string) (v : hval) (o : list (string * hval))
  : list (string * hval) :=
  match o with
  | [] => [(k, v)]
  | (k', v') :: o' =>
      if String.eqb k' k then (k, v) :: o' else (k', v') :: setProp k v o'
  end.

Definition copyProps (dst src : list (string * hval)) : list (string * hval) :=
  fold_left (fun acc kv => setProp (fst kv) (snd kv) acc) src dst.

Fixpoint lookupProp (k : string) (o : list (string * hval)) : hval :=
  match o with
  | [] => HUndefined
  | (k', v) :: o' => if String.eqb k' k then v else lookupProp k o'
  end.

(** The index that a property key spells, if it spells one. *)
Definition indexOf (k : string) : option nat :=
  N.to_nat <$> Utils.parseSegment k.

(** The own enumerable properties of a value: those of the object, the
    indexed elements of an array, the indexed characters of a string, none
    for the other primitives. *)
Definition ownProps (v : hval) : M (list (string * hval)) :=
  match v with
  | HRef l =>
      c ← read l;
      mret (match c with
            | HObject _ props => props
            | HArray elems => imap (fun i x => (pretty i, x)) elems
            end)
  | HString s =>
      mret (imap (fun i c => (pretty i, HString (String c EmptyString)))
                 (list_ascii_of_string s))
  | _ => mret []
  end.

(** The property read [v.k]. *)
Definition getProp (k : string) (v : hval) : M hval :=
  match v with
  | HUndefined | HNull => throw TypeError
  | HRef l =>
      c ← read l;
      mret (match c with
            | HObject _ props => lookupProp k props
            | HArray elems =>
                if String.eqb k "length" then HNumber (Z.of_nat (length elems))
                else match indexOf k with
                     | Some i => default HUndefined (elems !! i)
                     | None => HUndefined
                     end
            end)
  | HString s =>
      mret (if String.eqb k "length" then HNumber (Z.of_nat (String.length s))
            else match indexOf k with
                 | Some i =>
                     match list_ascii_of_string s !! i with
                     | Some c => HString (String c EmptyString)
                     | None => HUndefined
                     end
                 | None => HUndefined
                 end)
  | _ => mret HUndefined
  end.

(** [Object.keys(v)]. *)
Definition Object_keys (v : hval) : M (list string) :=
  match v with
  | HUndefined | HNull => throw TypeError
  | _ => props ← ownProps v; mret (map fst props)
  end.

(** The object literals [{ ...a }] and [{ ...a, ...b }]. *)
Definition spread1 (a : hval) : M hval :=
  pa ← ownProps a;
  alloc (HObject false (copyProps [] pa)).

Definition spread2 (a b : hval) : M hval :=
  pa ← ownProps a;
  pb ← ownProps b;
  alloc (HObject false (copyProps (copyProps [] pa) pb)).

(** The elements of an array; calling an array method on anything else is
    a [TypeError]. *)
Definition arrayElems (v : hval) : M (list hval) :=
  match v with
  | HRef l =>
      c ← read l;
      match c with
      | HArray elems => mret elems
      | HObject _ _ => throw TypeError
      end
  | _ => throw TypeError
  end.

Definition sameValueZero (x y : hval) : bool :=
  match x, y with
  | HUndefined, HUndefined => true
  | HNull, HNull => true
  | HBool a, HBool b => Bool.eqb a b
  | HNumber a, HNumber b => (a =? b)%Z
  | HString a, HString b => String.eqb a b
  | HRef a, HRef b => Nat.eqb a b
  | _, _ => false
  end.

(** [arr.includes(x)]. *)
Definition includes (arr x : hval) : M bool :=
  elems ← arrayElems arr;
  mret (existsb (sameValueZero x) elems).

(** [arr.forEach(f)] where [f] updates the local variable [acc]: the
    indices up to the length found at the start, the element read when its
    turn comes. *)
Definition forEach {B : Type} (arr : hval) (f : B -> hval -> M B) (acc : B) : M B :=
  elems ← arrayElems arr;
  foldM (fun acc i =>
           elems' ← arrayElems arr;
           match elems' !! i with
           | Some x => f acc x
           | None => mret acc
           end)
        (seq 0 (length elems)) acc.

(** The module-level constants of runtime.ts, as references. *)
Record Globals : Type := {
  teamsRuntimeConfig : hval;
  versionConstants : hval
}.

Section Generator.

Variable compareSDKVersions : string -> string -> number.
Variable globals : Globals.
Variable hostClientType : hval.

Definition applyCapabilityReqs (newSupports capabilityReqs : hval) : M hval :=
  types ← getProp "hostClientTypes" capabilityReqs;
  listed ← includes types hostClientType;
  if listed : bool
  then fragment ← getProp "capability" capabilityReqs;
       spread2 newSupports fragment
  else mret newSupports.

Definition applyVersion (highestSupportedVersion : string)
    (newSupports : hval) (versionNumber : string) : M hval :=
  if ge0 (compareSDKVersions highestSupportedVersion versionNumber)
  then reqs ← getProp versionNumber (versionConstants globals);
       forEach reqs applyCapabilityReqs newSupports
  else mret newSupports.

Definition generateBackCompatRuntimeConfig (highestSupportedVersion : string)
  : M hval :=
  baseline ← getProp "supports" (teamsRuntimeConfig globals);
  newSupports ← spread1 baseline;
  versionNumbers ← Object_keys (versionConstants globals);
  newSupports ← foldM (applyVersion highestSupportedVersion) versionNumbers newSupports;
  alloc (HObject false [
    ("apiVersion", HNumber 1);
    ("isLegacyTeams", HBool true);
    ("supports", newSupports)
  ]).

End Generator.

(** Evaluating a literal: a new cell for every object in it. *)
Fixpoint literal (v : value) : M hval :=
  match v with
  | VUndefined => mret HUndefined
  | VNull => mret HNull
  | VBool b => mret (HBool b)
  | VNumber n => mret (HNumber n)
  | VObject fr props =>
      props' ← (fix literals (l : list (string * value)) : M (list (string * hval)) :=
                  match l with
                  | [] => mret []
                  | (k, v') :: l' =>
                      x ← literal v';
                      rest ← literals l';
                      mret ((k, x) :: rest)
                  end) props;
      alloc (HObject fr props')
  end.

Definition requirement (fragment : value) (types : hval) : M hval :=
  c ← literal fragment;
  alloc (HObject false [("capability", c); ("hostClientTypes", types)]).

(** Loading runtime.ts: the baseline, the array [v1HostClientTypes], which
    two entries of the table share, and the table. *)
Definition loadModule (HostClientType : HostClientTypeEnum) : M Globals :=
  baseline ← literal baselineLiteral;
  v1 ← alloc (HArray (map HString (v1HostClientTypes HostClientType)));
  r1 ← requirement (obj [("location", obj [])]) v1;
  a1 ← alloc (HArray [r1]);
  r2 ← requirement (obj [("people", obj [])]) v1;
  a2 ← alloc (HArray [r2]);
  t3 ← alloc (HArray (map HString [
          android HostClientType;
          teamsRoomsAndroid HostClientType;
          teamsPhones HostClientType;
          teamsDisplays HostClientType]));
  r3 ← requirement
         (obj [("teams", obj [("fullTrust", obj [("joinedTeams", obj [])])])]) t3;
  a3 ← alloc (HArray [r3]);
  table ← alloc (HObject false [("1.9.0", a1); ("2.0.0", a2); ("2.0.1", a3)]);
  mret {| teamsRuntimeConfig := baseline; versionConstants := table |}.

(** Reading a tree of objects back from the store, to the given depth. *)
Fixpoint reify (depth : nat) (h : heap) (v : hval) : option value :=
  match v with
  | HUndefined => Some VUndefined
  | HNull => Some VNull
  | HBool b => Some (VBool b)
  | HNumber n => Some (VNumber n)
  | HString _ => None
  | HRef l =>
      match depth with
      | O => None
      | S depth' =>
          match h !! l with
          | Some (HObject fr props) =>
              props' ← mapM (fun '(k, x) => pair k <$> reify depth' h x) props;
              Some (VObject fr props')
          | _ => None
          end
      end
  end.

(** A computation that leaves every cell of the store it starts from as it
    is, and at most adds cells after them. *)
Definition extends {A : Type} (m : M A) : Prop :=
  forall h, exists fresh, snd (m h) = h ++ fresh.

End Heap.

(** ** Definitions that the statements use *)

(** The spec's reading of the generator: the entries of the threshold table,
    those that the declared version and the host client type unlock, and the
    baseline extended with their fragments, a fragment's keys taking the
    place of, or following, the keys already there. *)
Section SpecReading.

Variable HostClientType : HostClientTypeEnum.
Variable compareSDKVersions : string -> string -> number.
Variable hostClientType : string.

Definition thresholdEntries : list (string * ICapabilityReqs) :=
  flat_map (fun '(k, reqs) => map (pair k) reqs) (versionConstants HostClientType).

Definition unlocked (v : string) (e : string * ICapabilityReqs) : bool :=
  ge0 (compareSDKVersions v (fst e)) && includes (hostClientTypes (snd e)) hostClientType.

Definition extendWith (base fragment : value) : value :=
  obj (copyProps (propsOf base) (propsOf fragment)).

Definition unlockedFragments (v : string) : list value :=
  map (fun e => capability (snd e)) (filter (unlocked v) thresholdEntries).

Definition baselineExtended (v : string) : value :=
  fold_left extendWith (unlockedFragments v) (supports teamsRuntimeConfig).

(** The three tests that decide what the generator returns. *)
Definition locationUnlocked (v : string) : bool :=
  ge0 (compareSDKVersions v "1.9.0") && includes (v1HostClientTypes HostClientType) hostClientType.

Definition peopleUnlocked (v : string) : bool :=
  ge0 (compareSDKVersions v "2.0.0") && includes (v1HostClientTypes HostClientType) hostClientType.

Definition joinedTeamsUnlocked (v : string) : bool :=
  ge0 (compareSDKVersions v "2.0.1")
  && includes [android HostClientType; teamsRoomsAndroid HostClientType;
               teamsPhones HostClientType; teamsDisplays HostClientType] hostClientType.

(** The [supports] tree that each outcome of the three tests gives. *)
Definition supportsFor (loc people joined : bool) : value :=
  let s0 := supports teamsRuntimeConfig in
  let s1 := if loc then extendWith s0 (obj [("location", obj [])]) else s0 in
  let s2 := if people then extendWith s1 (obj [("people", obj [])]) else s1 in
  if joined
  then extendWith s2 (obj [("teams", obj [("fullTrust", obj [("joinedTeams", obj [])])])])
  else s2.

End SpecReading.

(** Wherever [t1] holds an object, [t2] holds one too. *)
Fixpoint covers (t1 t2 : value) : bool :=
  match t1 with
  | VObject _ props =>
      isObject t2 && forallb (fun '(k, v) => covers v (field k t2)) props
  | _ => true
  end.

(** Every property that is not itself an object holds [undefined]. *)
Fixpoint leavesUndefined (v : value) : bool :=
  match v with
  | VUndefined => true
  | VObject _ props => forallb (fun '(_, v') => leavesUndefined v') props
  | _ => false
  end.

(** The capability paths at which the default runtime holds an object. *)
Definition defaultObjectPaths : list (list string) := [
  [];
  ["chat"];
  ["dialog"];
  ["pages"];
  ["teams"];
  ["teams"; "fullTrust"]
].

(** An enumeration whose members have their names as values, to try the
    statements on. *)
Definition namedHostClientTypes : HostClientTypeEnum := {|
  desktop := "desktop";
  web := "web";
  android := "android";
  ios := "ios";
  rigel := "rigel";
  surfaceHub := "surfaceHub";
  teamsRoomsWindows := "teamsRoomsWindows";
  teamsRoomsAndroid := "teamsRoomsAndroid";
  teamsPhones := "teamsPhones";
  teamsDisplays := "teamsDisplays"
|}.

(** The double quote, to write down the texts that the tests expect. *)
Definition q : string := String JSON.quote EmptyString.

(** The request [id] is still waiting. *)
Definition awaiting (id : N) (e : Engine) : Prop :=
  id ∈ pendingRequests e /\ promises e !! id = Some Pending /\ (id < nextMessageId e)%N.

(** A state as the location tests set it up: initialized in the content
    context, with a published registry that supports location. *)
Definition locationTestState : State :=
  applyRuntimeConfig
    (obj [("apiVersion", VNumber 1); ("supports", obj [("location", obj [])])])
    {| currentRuntime := runtime;
       lifecycle := Initialized "content";
       engine := initialEngine |}.

(** ** Paths of a tree *)

(** The capability paths at which a tree holds an object, the root first. *)
Fixpoint objectPaths (v : value) : list (list string) :=
  match v with
  | VObject _ props =>
      [] :: flat_map (fun '(k, v') => map (cons k) (objectPaths v')) props
  | _ => []
  end.

(** No object of the tree has two properties of the same name. *)
Fixpoint distinctKeys (v : value) : bool :=
  match v with
  | VObject _ props =>
      bool_decide (NoDup (map fst props))
      && forallb (fun '(_, v') => distinctKeys v') props
  | _ => true
  end.

(** The paths that the threshold entries can add to the baseline's. *)
Definition unlockedPaths (loc people joined : bool) : list (list string) :=
  (if loc then [["location"]] else [])
  ++ (if people then [["people"]] else [])
  ++ (if joined then [["teams"; "fullTrust"; "joinedTeams"]] else []).

(** ** The interface [IRuntime] as a shape *)






(** ** What is asked of a run over the store *)

Module HeapSpec.

Import Heap.

(** A computation that leaves the store as it found it. *)
Definition readsOnly {A : Type} (m : M A) : Prop :=
  forall h, snd (m h) = h.

(** The local variable [newSupports] of the generator refers to an unfrozen
    object that did not exist in the store [h0] of the call. *)
Definition freshObject (h0 : heap) (x : hval) (h : heap) : Prop :=
  exists s props,
    x = HRef s /\ length h0 <= s /\ h !! s = Some (HObject false props).

(** The properties of the object that [r.supports] refers to. *)
Definition supportsProps (r : hval) : M (list (string * hval)) :=
  s ← getProp "supports" r; ownProps s.

(** What is checked of a property [k] of the baseline's [supports], holding
    [x]: [x] refers to a cell among the first [n], and the generated
    [supports], with properties [rp], holds the same reference under [k],
    unless [k] is [teams] and the 2.0.1 entry applied. *)
Definition sharedWith (n : nat) (joined : bool) (rp : list (string * hval))
    (kx : string * hval) : bool :=
  match snd kx with
  | HRef l => (l <? n)%nat
  | _ => false
  end
  && ((String.eqb (fst kx) "teams" && joined)
      || sameValueZero (lookupProp (fst kx) rp) (snd kx)).

End HeapSpec.

(** * Properties *)

(** ** Induction on values, through the property lists *)

Section ValueInduction.

Variable P : value -> Prop.
Hypothesis P_undefined : P VUndefined.
Hypothesis P_null : P VNull.
Hypothesis P_bool : forall b, P (VBool b).
Hypothesis P_number : forall n, P (VNumber n).
Hypothesis P_object :
  forall fr props, Forall (fun kv => P (snd kv)) props -> P (VObject fr props).

Lemma value_deep_ind (v : value) : P v.
Proof.
  revert v. fix IH 1. intros [| | | |fr props].
  - exact P_undefined.
  - exact P_null.
  - apply P_bool.
  - apply P_number.
  - apply P_object. induction props as [|kv props IHprops].
    + apply List.Forall_nil.
    + apply List.Forall_cons; [apply IH | exact IHprops].
Qed.

End ValueInduction.

(** ** Property lists *)

Lemma lookupProp_map (f : value -> value) (k : string) (props : list (string * value)) :
  f VUndefined = VUndefined ->
  lookupProp k (map (fun '(k', v) => (k', f v)) props) = f (lookupProp k props).
Proof.
  intros Hf. induction props as [|[k' v] props IH]; simpl; [now rewrite Hf|].
  destruct (String.eqb k' k); [reflexivity | exact IH].
Qed.

Lemma withChild_same (k : string) (props : list (string * value)) :
  withChild k (lookupProp k props) props = props.
Proof.
  induction props as [|[k' v] props IH]; simpl; [reflexivity|].
  destruct (String.eqb k' k); [reflexivity | now rewrite IH].
Qed.

Lemma lookupProp_Forall (P : value -> Prop) (k : string) (props : list (string * value)) :
  P VUndefined -> Forall (fun kv => P (snd kv)) props -> P (lookupProp k props).
Proof.
  intros Hu HF. induction HF as [|[k' v] props Hv _ IH]; simpl; [exact Hu|].
  destruct (String.eqb k' k); [exact Hv | exact IH].
Qed.

(** ** Freezing *)

Lemma deepFreeze_deeplyFrozen (v : value) : deeplyFrozen (Utils.deepFreeze v) = true.
Proof.
  induction v as [| | | |fr props IH] using value_deep_ind; try reflexivity.
  simpl. induction IH as [|[k v] props Hv _ IHl]; simpl; [reflexivity|].
  simpl in Hv. rewrite Hv. exact IHl.
Qed.

Lemma deepFreeze_content (v : value) : content (Utils.deepFreeze v) = content v.
Proof.
  induction v as [| | | |fr props IH] using value_deep_ind; try reflexivity.
  simpl. f_equal. induction IH as [|[k v] props Hv _ IHl]; simpl; [reflexivity|].
  simpl in Hv. now rewrite Hv, IHl.
Qed.

Lemma deeplyFrozen_props (fr : bool) (props : list (string * value)) :
  deeplyFrozen (VObject fr props) = true ->
  fr = true /\ Forall (fun kv => deeplyFrozen (snd kv) = true) props.
Proof.
  simpl. intros H. apply andb_true_iff in H as [Hfr Hall]. split; [exact Hfr|].
  rewrite forallb_forall in Hall. apply List.Forall_forall.
  intros [k v] Hin. exact (Hall _ Hin).
Qed.

Lemma deeplyFrozen_field (k : string) (v : value) :
  deeplyFrozen v = true -> deeplyFrozen (field k v) = true.
Proof.
  destruct v as [| | | |fr props]; try reflexivity.
  intros H. apply deeplyFrozen_props in H as [_ HF].
  unfold field; simpl. now apply lookupProp_Forall.
Qed.

Lemma deeplyFrozen_valueAt (path : list string) (v : value) :
  deeplyFrozen v = true -> deeplyFrozen (valueAt path v) = true.
Proof.
  revert v. induction path as [|k path IH]; intros v H; simpl; [exact H|].
  apply IH. now apply deeplyFrozen_field.
Qed.

(** A write below a deeply frozen root is refused or changes nothing. *)
Lemma mutateAt_deeplyFrozen (strict : bool) (path : list string) (m : mutation)
    (root r : value) :
  deeplyFrozen root = true -> mutateAt strict path m root = Ok r -> r = root.
Proof.
  revert root r. induction path as [|k path IH]; intros root r Hroot Hm.
  - simpl in Hm. destruct root as [| | | |fr props]; simpl in Hm;
      try discriminate.
    + destruct m, strict; congruence.
    + destruct m, strict; congruence.
    + apply deeplyFrozen_props in Hroot as [-> _].
      destruct strict; congruence.
  - simpl in Hm. destruct root as [| | | |fr props]; simpl in Hm;
      try discriminate.
    + destruct (mutateAt strict path m VUndefined); simpl in Hm; congruence.
    + destruct (mutateAt strict path m VUndefined); simpl in Hm; congruence.
    + destruct (mutateAt strict path m (lookupProp k props)) as [c|e] eqn:Hc;
        simpl in Hm; [|discriminate].
      apply IH in Hc.
      * subst c. injection Hm as <-. now rewrite withChild_same.
      * apply (deeplyFrozen_field k (VObject fr props)). exact Hroot.
Qed.

(** ** Support queries *)

Lemma supportedFrom_valueAt (path : list string) (v : value) :
  supportedFrom path v = Ok (isObject (valueAt path v)).
Proof.
  revert v. induction path as [|k path IH]; intros v; simpl; [reflexivity|].
  destruct v as [| | | |fr props]; simpl.
  1-4: clear IH; induction path as [|k' path IH']; [reflexivity | exact IH'].
  apply IH.
Qed.

Lemma deepFreeze_field (k : string) (v : value) :
  field k (Utils.deepFreeze v) = Utils.deepFreeze (field k v).
Proof.
  destruct v as [| | | |fr props]; try reflexivity.
  unfold field; simpl. now apply lookupProp_map.
Qed.

Lemma deepFreeze_valueAt (path : list string) (v : value) :
  valueAt path (Utils.deepFreeze v) = Utils.deepFreeze (valueAt path v).
Proof.
  revert v. induction path as [|k path IH]; intros v; simpl; [reflexivity|].
  now rewrite deepFreeze_field, IH.
Qed.

Lemma deepFreeze_isObject (v : value) : isObject (Utils.deepFreeze v) = isObject v.
Proof. now destruct v. Qed.

Lemma isSupportedPath_applied (path : list string) (cfg : value) (st : State) :
  isSupportedPath path (applyRuntimeConfig cfg st)
  = Ok (isObject (valueAt path (supports cfg))).
Proof.
  unfold isSupportedPath. rewrite supportedFrom_valueAt. simpl.
  now rewrite deepFreeze_field, deepFreeze_valueAt, deepFreeze_isObject.
Qed.

Lemma isSupportedPath_total (path : list string) (st : State) :
  exists b, isSupportedPath path st = Ok b.
Proof. unfold isSupportedPath. rewrite supportedFrom_valueAt. eauto. Qed.

Lemma valueAt_not_object (path : list string) (v : value) :
  isObject v = false -> isObject (valueAt path v) = false.
Proof.
  revert v. induction path as [|k path IH]; intros v Hv; simpl; [exact Hv|].
  apply IH. destruct v; try reflexivity. discriminate.
Qed.

(** C2: a support query answers true exactly when the key it asks for holds
    an object in the published registry, an empty one included; an absent key
    and a key holding [undefined] both give false; asking for a
    sub-capability below a parent that is [undefined] or has no such key gives
    false; and the query never throws. The last conjunct replays the
    registries of the dialog tests. *)
Theorem C2_isSupported_iff_object :
  (forall path st, exists b, isSupportedPath path st = Ok b) /\
  (forall cfg st,
      dialog.isSupported (applyRuntimeConfig cfg st)
      = Ok (isObject (field "dialog" (supports cfg))) /\
      dialog.update.isSupported (applyRuntimeConfig cfg st)
      = Ok (isObject (field "update" (field "dialog" (supports cfg))))) /\
  (forall st,
      let published sup :=
        applyRuntimeConfig (obj [("apiVersion", VNumber 1); ("supports", obj sup)]) st in
      dialog.isSupported (published []) = Ok false /\
      dialog.isSupported (published [("dialog", VUndefined)]) = Ok false /\
      dialog.isSupported (published [("dialog", obj [])]) = Ok true /\
      dialog.isSupported (published [("dialog", obj [("update", obj [])])]) = Ok true /\
      dialog.update.isSupported (published []) = Ok false /\
      dialog.update.isSupported (published [("dialog", VUndefined)]) = Ok false /\
      dialog.update.isSupported (published [("dialog", obj [])]) = Ok false /\
      dialog.update.isSupported (published [("dialog", obj [("update", VUndefined)])])
      = Ok false /\
      dialog.update.isSupported (published [("dialog", obj [("update", obj [])])])
      = Ok true).
Proof.
  split; [exact isSupportedPath_total|]. split.
  - intros cfg st. split.
    + exact (isSupportedPath_applied ["dialog"] cfg st).
    + exact (isSupportedPath_applied ["dialog"; "update"] cfg st).
  - intros st published. repeat split; reflexivity.
Qed.

(** C5: [applyRuntimeConfig] makes the live registry a deeply frozen copy of
    the configuration: it has the configuration's content, every object
    reachable from its root is frozen, and a write or a delete aimed at any
    object below the root, in strict or in sloppy mode, either throws or
    leaves the registry as it was. *)
Theorem C5_published_registry_is_frozen (cfg : value) (st : State) :
  let published := currentRuntime (applyRuntimeConfig cfg st) in
  content published = content cfg /\
  (forall path, deeplyFrozen (valueAt path published) = true) /\
  (forall strict path m,
      mutateAt strict path m published = Ok published \/
      exists e, mutateAt strict path m published = Throw e).
Proof.
  simpl. split; [apply deepFreeze_content|]. split.
  - intros path. apply deeplyFrozen_valueAt, deepFreeze_deeplyFrozen.
  - intros strict path m.
    destruct (mutateAt strict path m (Utils.deepFreeze cfg)) as [r|e] eqn:Hm.
    + left. f_equal. eapply mutateAt_deeplyFrozen; [|exact Hm].
      apply deepFreeze_deeplyFrozen.
    + right. eauto.
Qed.

(** ** The default runtime *)


(** C9, as stated, fails: in the default runtime the key [dialog] holds an
    object, not [undefined], and the support query for it answers true. *)
Lemma C9_default_dialog_is_object :
  field "dialog" (supports runtime) = obj [("bot", VUndefined); ("update", VUndefined)] /\
  dialog.isSupported initialState = Ok true.
Proof. split; reflexivity. Qed.

Local Arguments String.eqb : simpl never.

Local Ltac split_key H :=
  match type of H with
  | context [String.eqb ?a ?k] =>
      destruct (String.eqb_spec a k) as [<-|_]; simpl in H
  end.

Local Ltac dead_end H :=
  first [ discriminate H
        | rewrite valueAt_not_object in H by reflexivity; discriminate H ].

(** C9, amended: the default runtime has [apiVersion] 1 and no
    [isLegacyTeams]; every leaf of its [supports] tree is [undefined]; the
    capabilities that have sub-capabilities ([chat], [dialog], [pages],
    [teams] and [teams.fullTrust]) are objects, and a support query answers
    true for exactly these paths (and for the root of the tree). *)
Theorem C9_default_runtime :
  apiVersion runtime = VNumber 1 /\
  hasProp "isLegacyTeams" (propsOf runtime) = false /\
  leavesUndefined (supports runtime) = true /\
  (forall path,
      isSupportedPath path initialState = Ok true <-> In path defaultObjectPaths).
Proof.
  repeat split; try reflexivity.
  - unfold isSupportedPath. rewrite supportedFrom_valueAt.
    intros H. injection H as H. simpl in H. unfold defaultObjectPaths.
    destruct path as [|k path]; [now left|]. simpl in H. unfold field in H. simpl in H.
    repeat (split_key H;
            [ destruct path as [|k1 path];
              [ first [discriminate H | simpl; tauto]
              | simpl in H; unfold field in H; simpl in H;
                repeat (split_key H;
                        [ destruct path as [|k2 path];
                          [ first [discriminate H | simpl; tauto]
                          | simpl in H; unfold field in H; simpl in H;
                            repeat (split_key H; [dead_end H|]); dead_end H ]
                        | ]); dead_end H ]
            | ]).
    dead_end H.
  - intros Hin. unfold defaultObjectPaths in Hin. simpl in Hin.
    repeat (destruct Hin as [<-|Hin]; [reflexivity|]). contradiction.
Qed.

(** ** The back-compat generator *)

Section GeneratorFacts.

Variable HostClientType : HostClientTypeEnum.
Variable compareSDKVersions : string -> string -> number.
Variable hostClientType : string.

Local Abbreviation locationUnlocked' :=
  (locationUnlocked HostClientType compareSDKVersions hostClientType).
Local Abbreviation peopleUnlocked' :=
  (peopleUnlocked HostClientType compareSDKVersions hostClientType).
Local Abbreviation joinedTeamsUnlocked' :=
  (joinedTeamsUnlocked HostClientType compareSDKVersions hostClientType).

Local Abbreviation generate :=
  (generateBackCompatRuntimeConfig HostClientType compareSDKVersions hostClientType).

Local Ltac by_cases :=
  repeat match goal with
         | |- context [if ?b then _ else _] => destruct b
         end;
  reflexivity.

Lemma generate_supportsFor (v : string) :
  supports (generate v)
  = supportsFor (locationUnlocked' v) (peopleUnlocked' v) (joinedTeamsUnlocked' v).
Proof.
  unfold locationUnlocked, peopleUnlocked, joinedTeamsUnlocked.
  cbv -[includes ge0]. by_cases.
Qed.

Lemma generate_baselineExtended (v : string) :
  supports (generate v)
  = baselineExtended HostClientType compareSDKVersions hostClientType v.
Proof. cbv -[includes ge0]. by_cases. Qed.

Lemma generate_uncovered (v : string) :
  forallb (fun e => negb (includes (hostClientTypes (snd e)) hostClientType))
          (thresholdEntries HostClientType) = true ->
  generate v = teamsRuntimeConfig.
Proof.
  cbv -[includes ge0]. intros H.
  repeat match type of H with
         | context [includes ?l ?x] => destruct (includes l x); try discriminate H
         end.
  by_cases.
Qed.

End GeneratorFacts.

(** ** The version comparator is a preorder on what it can compare *)

Lemma compareParts_zeros (m : nat) :
  Utils.compareParts (repeat 0%N m) (repeat 0%N m) = 0%Z.
Proof. induction m as [|m IH]; simpl; [reflexivity | exact IH]. Qed.

Lemma compareParts_app_zeros (a b : list N) (m : nat) :
  length a = length b ->
  Utils.compareParts (a ++ repeat 0%N m) (b ++ repeat 0%N m) = Utils.compareParts a b.
Proof.
  revert b. induction a as [|x a IH]; intros [|y b] Hlen; simpl in *; try discriminate.
  - rewrite compareParts_zeros. reflexivity.
  - destruct (x =? y)%N; [apply IH; lia | reflexivity].
Qed.

Lemma padParts_length (n : nat) (a : list N) :
  length a <= n -> length (Utils.padParts n a) = n.
Proof.
  intros H. unfold Utils.padParts. rewrite length_app, repeat_length. lia.
Qed.

Lemma padParts_more (n m : nat) (a : list N) :
  length a <= n -> n <= m ->
  Utils.padParts m a = Utils.padParts n a ++ repeat 0%N (m - n).
Proof.
  intros Ha Hn. unfold Utils.padParts. rewrite <- app_assoc. f_equal.
  rewrite <- repeat_app. f_equal. lia.
Qed.

Lemma compareParts_padded (n : nat) (a b : list N) :
  Nat.max (length a) (length b) <= n ->
  Utils.compareParts (Utils.padParts n a) (Utils.padParts n b)
  = Utils.compareParts (Utils.padParts (Nat.max (length a) (length b)) a)
                       (Utils.padParts (Nat.max (length a) (length b)) b).
Proof.
  intros Hn.
  rewrite (padParts_more (Nat.max (length a) (length b)) n a) by lia.
  rewrite (padParts_more (Nat.max (length a) (length b)) n b) by lia.
  apply compareParts_app_zeros. rewrite !padParts_length; lia.
Qed.

Lemma compareParts_trans (a b c : list N) :
  length a = length b -> length b = length c ->
  (Utils.compareParts a b <= 0)%Z -> (0 <= Utils.compareParts a c)%Z ->
  (0 <= Utils.compareParts b c)%Z.
Proof.
  revert b c. induction a as [|x a IH]; intros [|y b] [|z c] Hab Hbc;
    simpl in *; try discriminate; try lia.
  destruct (N.eqb_spec x y), (N.eqb_spec x z), (N.eqb_spec y z);
    destruct (N.ltb_spec y x), (N.ltb_spec z x), (N.ltb_spec z y);
    intros; try lia.
  apply IH; lia.
Qed.

(** If [v1] is at most [v2] and a threshold [k] is at most [v1], then [k] is
    at most [v2]. *)
Lemma compareSDKVersions_trans (v1 v2 k : string) :
  le0 (Utils.compareSDKVersions v1 v2) = true ->
  ge0 (Utils.compareSDKVersions v1 k) = true ->
  ge0 (Utils.compareSDKVersions v2 k) = true.
Proof.
  unfold Utils.compareSDKVersions.
  destruct (Utils.parseVersion v1) as [a|]; [|discriminate].
  destruct (Utils.parseVersion v2) as [b|]; [|discriminate].
  destruct (Utils.parseVersion k) as [c|]; [|discriminate].
  simpl. rewrite !Z.leb_le.
  set (n := Nat.max (length a) (Nat.max (length b) (length c))).
  rewrite <- (compareParts_padded n a b) by lia.
  rewrite <- (compareParts_padded n a c) by lia.
  rewrite <- (compareParts_padded n b c) by lia.
  apply compareParts_trans; rewrite !padParts_length; lia.
Qed.

(** ** Comparing what two trees support *)


Lemma covers_field (k : string) (t1 t2 : value) :
  covers t1 t2 = true -> covers (field k t1) (field k t2) = true.
Proof.
  destruct t1 as [| | | |fr props]; try reflexivity.
  simpl. intros H. apply andb_true_iff in H as [_ H]. unfold field at 1. simpl.
  induction props as [|[k' v] props IH]; simpl in *; [reflexivity|].
  apply andb_true_iff in H as [Hv Hrest].
  destruct (String.eqb_spec k' k) as [->|_]; [exact Hv | exact (IH Hrest)].
Qed.

Lemma covers_sound (path : list string) (t1 t2 : value) :
  covers t1 t2 = true ->
  isObject (valueAt path t1) = true -> isObject (valueAt path t2) = true.
Proof.
  revert t1 t2. induction path as [|k path IH]; intros t1 t2 Hc H; simpl in *.
  - destruct t1; try discriminate. simpl in Hc.
    now apply andb_true_iff in Hc as [Hc _].
  - eapply IH; [|exact H]. now apply covers_field.
Qed.

Lemma supportsFor_monotone (l1 p1 j1 l2 p2 j2 : bool) :
  (l1 = true -> l2 = true) -> (p1 = true -> p2 = true) -> (j1 = true -> j2 = true) ->
  covers (supportsFor l1 p1 j1) (supportsFor l2 p2 j2) = true.
Proof.
  intros Hl Hp Hj.
  destruct l1, l2; try (specialize (Hl eq_refl); discriminate Hl);
    destruct p1, p2; try (specialize (Hp eq_refl); discriminate Hp);
    destruct j1, j2; try (specialize (Hj eq_refl); discriminate Hj);
    vm_compute; reflexivity.
Qed.


(** C1: for every declared version [v] and host client type [H], the
    generator returns a registry with [apiVersion] 1 and [isLegacyTeams] true
    whose [supports] tree is the baseline's extended with the fragments of
    exactly those threshold entries whose key [k] has
    [compareSDKVersions(v, k) >= 0] and whose host list contains [H]; this
    part holds whatever the comparator answers. With the comparator of the
    spec and a host in [v1HostClientTypes], version 1.9.0 gives location and
    not people, 2.0.0 gives both, 1.5.0 gives neither. *)
Theorem C1_generated_registry (E : HostClientTypeEnum)
    (cmp : string -> string -> number) (H v : string) :
  supports (generateBackCompatRuntimeConfig E cmp H v) = baselineExtended E cmp H v /\
  apiVersion (generateBackCompatRuntimeConfig E cmp H v) = VNumber 1 /\
  isLegacyTeams (generateBackCompatRuntimeConfig E cmp H v) = VBool true /\
  (includes (v1HostClientTypes E) H = true ->
   let generate := generateBackCompatRuntimeConfig E Utils.compareSDKVersions H in
   (isObject (field "location" (supports (generate "1.9.0"))) = true /\
    isObject (field "people" (supports (generate "1.9.0"))) = false) /\
   (isObject (field "location" (supports (generate "2.0.0"))) = true /\
    isObject (field "people" (supports (generate "2.0.0"))) = true) /\
   (isObject (field "location" (supports (generate "1.5.0"))) = false /\
    isObject (field "people" (supports (generate "1.5.0"))) = false)).
Proof.
  split; [apply generate_baselineExtended|].
  split; [reflexivity|]. split; [reflexivity|].
  intros HH generate. subst generate. rewrite !generate_supportsFor.
  unfold locationUnlocked, peopleUnlocked, joinedTeamsUnlocked. rewrite HH.
  destruct (includes _ H); vm_compute; auto.
Qed.

Lemma C1_generated_registry_witness :
  let generate :=
    generateBackCompatRuntimeConfig namedHostClientTypes Utils.compareSDKVersions "web" in
  includes (v1HostClientTypes namedHostClientTypes) "web" = true /\
  supports (generate "1.9.0")
  = baselineExtended namedHostClientTypes Utils.compareSDKVersions "web" "1.9.0" /\
  isObject (field "location" (supports (generate "1.9.0"))) = true /\
  isObject (field "people" (supports (generate "1.9.0"))) = false.
Proof.
  pose proof (C1_generated_registry namedHostClientTypes Utils.compareSDKVersions
                "web" "1.9.0") as [H1 [_ [_ H2]]].
  split; [reflexivity|]. split; [exact H1|].
  exact (proj1 (H2 eq_refl)).
Defined.

(** C3: raising the declared version never loses a capability. For every
    host client type and all versions [v1], [v2] with
    [compareSDKVersions(v1, v2) <= 0], every capability path that the
    registry generated for [v1] supports is supported by the registry
    generated for [v2]. *)
Theorem C3_generation_is_monotone (E : HostClientTypeEnum) (H v1 v2 : string)
    (path : list string) (st : State) :
  let generate := generateBackCompatRuntimeConfig E Utils.compareSDKVersions H in
  le0 (Utils.compareSDKVersions v1 v2) = true ->
  isSupportedPath path (applyRuntimeConfig (generate v1) st) = Ok true ->
  isSupportedPath path (applyRuntimeConfig (generate v2) st) = Ok true.
Proof.
  intros generate Hle. subst generate. rewrite !isSupportedPath_applied.
  intros Hs. injection Hs as Hs. f_equal. revert Hs.
  apply covers_sound. rewrite !generate_supportsFor.
  apply supportsFor_monotone;
    unfold locationUnlocked, peopleUnlocked, joinedTeamsUnlocked;
    rewrite !andb_true_iff; intros [Hv Hh]; (split; [|exact Hh]);
    exact (compareSDKVersions_trans _ _ _ Hle Hv).
Qed.

Lemma C3_generation_is_monotone_witness :
  let generate :=
    generateBackCompatRuntimeConfig namedHostClientTypes Utils.compareSDKVersions "android" in
  le0 (Utils.compareSDKVersions "2.0.1" "1.9.0") = false /\
  le0 (Utils.compareSDKVersions "1.9.0" "2.0.1") = true /\
  isSupportedPath ["teams"; "fullTrust"]
    (applyRuntimeConfig (generate "1.9.0") initialState) = Ok true /\
  isSupportedPath ["teams"; "fullTrust"]
    (applyRuntimeConfig (generate "2.0.1") initialState) = Ok true.
Proof.
  split; [reflexivity|]. split; [reflexivity|]. split; [reflexivity|].
  apply (C3_generation_is_monotone namedHostClientTypes "android" "1.9.0" "2.0.1"
           ["teams"; "fullTrust"] initialState); reflexivity.
Defined.

(** C4: a host client type that no threshold entry lists gets the baseline
    and nothing more, whatever the declared version and whatever the
    comparator answers: the generated [supports] tree, and the whole
    registry, equal the baseline's. *)
Theorem C4_uncovered_host_gets_baseline (E : HostClientTypeEnum)
    (compareSDKVersions : string -> string -> number) (H v : string) :
  (forall e, In e (thresholdEntries E) -> includes (hostClientTypes (snd e)) H = false) ->
  supports (generateBackCompatRuntimeConfig E compareSDKVersions H v)
  = supports teamsRuntimeConfig /\
  generateBackCompatRuntimeConfig E compareSDKVersions H v = teamsRuntimeConfig.
Proof.
  intros Hout.
  assert (generateBackCompatRuntimeConfig E compareSDKVersions H v = teamsRuntimeConfig)
    as Heq.
  { apply generate_uncovered. apply forallb_forall. intros e He.
    now rewrite (Hout e He). }
  split; [now rewrite Heq | exact Heq].
Qed.

Lemma C4_uncovered_host_gets_baseline_witness :
  (forall e, In e (thresholdEntries namedHostClientTypes) ->
             includes (hostClientTypes (snd e)) "macos" = false) /\
  supports (generateBackCompatRuntimeConfig namedHostClientTypes
              Utils.compareSDKVersions "macos" "99.0.0")
  = supports teamsRuntimeConfig.
Proof.
  assert (forall e, In e (thresholdEntries namedHostClientTypes) ->
                    includes (hostClientTypes (snd e)) "macos" = false) as Hout.
  { intros e He. simpl in He.
    repeat (destruct He as [<-|He]; [reflexivity|]). contradiction. }
  split; [exact Hout|].
  exact (proj1 (C4_uncovered_host_gets_baseline namedHostClientTypes
                  Utils.compareSDKVersions "macos" "99.0.0" Hout)).
Defined.

(** ** The guard *)

Lemma capabilityCall_uninitialized (c : Capability) (args : list value) (st : State) :
  initialized st = false ->
  capabilityCall c args st = (Throw (Error errorLibraryNotInitialized), st).
Proof.
  unfold initialized, capabilityCall, ensureInitialized.
  destruct (lifecycle st); [reflexivity | reflexivity | discriminate].
Qed.

(** C7: whatever the entry point and whatever the arguments, a capability
    call made before initialization has completed throws the error with the
    fixed message 'The library has not yet been initialized', and sends
    nothing. *)
Theorem C7_call_before_initialization (c : Capability) (args : list value) (st : State) :
  initialized st = false ->
  capabilityCall c args st
  = (Throw (Error "The library has not yet been initialized"), st).
Proof. apply capabilityCall_uninitialized. Qed.

Lemma C7_call_before_initialization_witness :
  initialized initialState = false /\
  capabilityCall location.getCurrentLocation [] initialState
  = (Throw (Error "The library has not yet been initialized"), initialState).
Proof.
  split; [reflexivity|].
  apply (C7_call_before_initialization location.getCurrentLocation [] initialState).
  reflexivity.
Defined.


(** C8: a context-restricted capability call made after initialization from
    a frame context outside the call's allow-list throws the context error
    'This call is only allowed in following contexts: <allow-list>. Current
    context: <context>.', the allow-list and the context as JSON text, the
    list in its order; nothing is sent. The allow-list of the location calls
    and the authentication context give the text that the tests expect. *)
Theorem C8_call_from_disallowed_context (c : Capability) (allowed : list string)
    (frameContext : string) (args : list value) (st : State) :
  lifecycle st = Initialized frameContext ->
  allowedContexts c = Some allowed ->
  includes allowed frameContext = false ->
  capabilityCall c args st
  = (Throw (Error ("This call is only allowed in following contexts: "
                   ++ JSON.stringifyArray allowed
                   ++ ". Current context: " ++ JSON.stringify frameContext ++ ".")),
     st)
  /\ JSON.stringifyArray ["content"; "task"]
     = ("[" ++ q ++ "content" ++ q ++ "," ++ q ++ "task" ++ q ++ "]")%string
  /\ JSON.stringify "authentication" = (q ++ "authentication" ++ q)%string.
Proof.
  intros Hl Ha Hi. split; [|split; reflexivity].
  unfold capabilityCall, ensureInitialized. now rewrite Hl, Ha, Hi.
Qed.

Lemma C8_call_from_disallowed_context_witness :
  let st := {| currentRuntime := runtime;
               lifecycle := Initialized "authentication";
               engine := initialEngine |} in
  includes ["content"; "task"] "authentication" = false /\
  capabilityCall location.getCurrentLocation [] st
  = (Throw (Error ("This call is only allowed in following contexts: ["
                   ++ q ++ "content" ++ q ++ "," ++ q ++ "task" ++ q
                   ++ "]. Current context: " ++ q ++ "authentication" ++ q ++ ".")),
     st).
Proof.
  intros st. split; [reflexivity|].
  exact (proj1 (C8_call_from_disallowed_context location.getCurrentLocation
                  ["content"; "task"] "authentication" [] st
                  eq_refl eq_refl eq_refl)).
Defined.

(** ** The correlation engine *)


Lemma sendAndAwait_awaiting (func : string) (args : list value) (e : Engine) :
  awaiting (fst (sendAndAwait func args e)) (snd (sendAndAwait func args e)).
Proof.
  unfold awaiting; simpl. split; [set_solver|].
  split; [apply lookup_insert_eq | lia].
Qed.

Lemma step_awaiting (id : N) (ev : Event) (e : Engine) :
  notResponseTo id ev = true -> awaiting id e -> awaiting id (step e ev).
Proof.
  intros Hev (Hin & Hp & Hlt). destruct ev as [func args|r]; simpl.
  - unfold awaiting; simpl. split; [set_solver|]. split; [|lia].
    rewrite lookup_insert_ne by lia. exact Hp.
  - simpl in Hev. apply negb_true_iff, N.eqb_neq in Hev.
    unfold handleResponse. destruct (decide (resp_id r ∈ pendingRequests e)).
    + unfold awaiting; simpl. split; [set_solver|]. split; [|exact Hlt].
      rewrite lookup_insert_ne by exact Hev. exact Hp.
    + now repeat split.
Qed.

Lemma run_awaiting (id : N) (evs : list Event) (e : Engine) :
  forallb (notResponseTo id) evs = true -> awaiting id e -> awaiting id (run evs e).
Proof.
  revert e. induction evs as [|ev evs IH]; intros e Hall Ha; simpl in *; [exact Ha|].
  apply andb_true_iff in Hall as [Hev Hall].
  apply IH; [exact Hall|]. now apply step_awaiting.
Qed.

Lemma handleResponse_settles (id : N) (args : list value) (e : Engine) :
  awaiting id e ->
  promises (handleResponse {| resp_id := id; resp_args := args |} e) !! id
  = Some (settle args).
Proof.
  intros (Hin & _ & _). unfold handleResponse; simpl.
  destruct (decide (id ∈ pendingRequests e)); [|contradiction].
  simpl. apply lookup_insert_eq.
Qed.

Lemma capabilityCall_sent (c : Capability) (args : list value) (st st' : State) (id : N) :
  capabilityCall c args st = (Ok id, st') ->
  sendAndAwait (func c) (messageArgs c args) (engine st) = (id, engine st').
Proof.
  unfold capabilityCall.
  destruct (ensureInitialized st (allowedContexts c)); [|discriminate].
  destruct (isSupportedPath (capabilityPath c) st) as [[|]|]; try discriminate.
  destruct (validArguments c args); [|discriminate].
  destruct (sendAndAwait _ _ _) as [id' e'] eqn:Hs.
  intros H. injection H as -> <-. reflexivity.
Qed.

(** C6: when a send-and-await capability call has gone out, the message
    handed to the transport bears the identifier [id] of the call's promise,
    and whatever else is sent and whatever responses to other requests arrive
    meanwhile, the response bearing [id] settles that promise: it is rejected
    with the first element of the response's arguments, as it is, when that
    element is present and non-null, and resolved with the element that
    follows when the first is [undefined]. Until then the promise is
    pending. *)
Theorem C6_response_settles_promise (c : Capability) (args : list value)
    (st st' : State) (id : N) (evs : list Event) :
  capabilityCall c args st = (Ok id, st') ->
  forallb (notResponseTo id) evs = true ->
  let e := run evs (engine st') in
  last (outbox (engine st'))
  = Some {| msg_id := id; msg_func := func c; msg_args := messageArgs c args |} /\
  promises e !! id = Some Pending /\
  (forall err rest,
      presentAndNonNull err = true ->
      promises (handleResponse {| resp_id := id; resp_args := err :: rest |} e) !! id
      = Some (Rejected err)) /\
  (forall v rest,
      promises (handleResponse {| resp_id := id; resp_args := VUndefined :: v :: rest |} e)
        !! id
      = Some (Resolved v)).
Proof.
  intros Hcall Hevs e. apply capabilityCall_sent in Hcall.
  assert (awaiting id e) as Ha.
  { apply run_awaiting; [exact Hevs|].
    pose proof (sendAndAwait_awaiting (func c) (messageArgs c args) (engine st)) as H.
    now rewrite Hcall in H. }
  split.
  { unfold sendAndAwait in Hcall. injection Hcall as <- <-. simpl. apply last_snoc. }
  split; [exact (proj1 (proj2 Ha))|]. split.
  - intros err rest Herr. rewrite handleResponse_settles by exact Ha.
    simpl. now rewrite Herr.
  - intros v rest. now rewrite handleResponse_settles by exact Ha.
Qed.

Lemma C6_response_settles_promise_witness :
  let called := capabilityCall location.getCurrentLocation [] locationTestState in
  let meanwhile :=
    [Sent "permissions.has" [];
     Received {| resp_id := 1; resp_args := [VUndefined; VBool true] |}] in
  let e := run meanwhile (engine (snd called)) in
  let denied := obj [("errorCode", VNumber 1000)] in
  fst called = Ok 0%N /\
  forallb (notResponseTo 0) meanwhile = true /\
  presentAndNonNull denied = true /\
  promises (handleResponse {| resp_id := 0; resp_args := [denied] |} e) !! 0%N
  = Some (Rejected denied).
Proof.
  intros called meanwhile e denied.
  split; [reflexivity|]. split; [reflexivity|]. split; [reflexivity|].
  apply (proj1 (proj2 (proj2 (C6_response_settles_promise location.getCurrentLocation []
                                locationTestState (snd called) 0%N meanwhile
                                eq_refl eq_refl)))).
  reflexivity.
Defined.

(** ** The generator only reads and allocates *)

Module HeapFacts.

Local Abbreviation pureIncludes := includes.
Local Abbreviation pureGenerate := generateBackCompatRuntimeConfig.
Local Abbreviation baselineLiteral := teamsRuntimeConfig.

Import Heap.


Lemma extends_ret {A : Type} (a : A) : extends (mret a).
Proof. intros h. exists []. simpl. now rewrite app_nil_r. Qed.

Lemma extends_throw {A : Type} (e : exn) : extends (throw e : M A).
Proof. intros h. exists []. simpl. now rewrite app_nil_r. Qed.

Lemma extends_bind {A B : Type} (m : M A) (f : A -> M B) :
  extends m -> (forall a, extends (f a)) -> extends (m ≫= f).
Proof.
  intros Hm Hf h. unfold mbind, M_bind.
  destruct (Hm h) as [fresh1 H1]. destruct (m h) as [[a|e] h1]; simpl in H1; subst h1.
  - destruct (Hf a (h ++ fresh1)) as [fresh2 H2].
    exists (fresh1 ++ fresh2). now rewrite H2, app_assoc.
  - exists fresh1. reflexivity.
Qed.

Lemma extends_alloc (c : cell) : extends (alloc c).
Proof. intros h. exists [c]. reflexivity. Qed.

Lemma extends_read (l : loc) : extends (read l).
Proof.
  intros h. exists []. unfold read. rewrite app_nil_r.
  now destruct (h !! l).
Qed.

Lemma extends_foldM {A B : Type} (f : B -> A -> M B) (l : list A) (b : B) :
  (forall b a, extends (f b a)) -> extends (foldM f l b).
Proof.
  intros Hf. revert b. induction l as [|a l IH]; intros b; simpl.
  - apply extends_ret.
  - apply extends_bind; [apply Hf | exact IH].
Qed.

Create HintDb frame.

#[local] Hint Resolve extends_ret extends_throw extends_alloc extends_read : frame.

Local Ltac frame :=
  repeat first
    [ apply extends_bind; [|intros ?]
    | apply extends_foldM; intros ? ?
    | solve [auto with frame]
    | match goal with
      | |- extends (match ?x with _ => _ end) => destruct x
      end ].

Lemma extends_ownProps (v : hval) : extends (ownProps v).
Proof. unfold ownProps. frame. Qed.

Lemma extends_getProp (k : string) (v : hval) : extends (getProp k v).
Proof. unfold getProp. frame. Qed.

Lemma extends_arrayElems (v : hval) : extends (arrayElems v).
Proof. unfold arrayElems. frame. Qed.

#[local] Hint Resolve extends_ownProps extends_getProp extends_arrayElems : frame.

Lemma extends_Object_keys (v : hval) : extends (Object_keys v).
Proof. unfold Object_keys. frame. Qed.

Lemma extends_spread1 (a : hval) : extends (spread1 a).
Proof. unfold spread1. frame. Qed.

Lemma extends_spread2 (a b : hval) : extends (spread2 a b).
Proof. unfold spread2. frame. Qed.

Lemma extends_includes (arr x : hval) : extends (includes arr x).
Proof. unfold includes. frame. Qed.

#[local] Hint Resolve extends_Object_keys extends_spread1 extends_spread2
  extends_includes : frame.

Lemma extends_forEach {B : Type} (arr : hval) (f : B -> hval -> M B) (acc : B) :
  (forall b x, extends (f b x)) -> extends (forEach arr f acc).
Proof. intros Hf. unfold forEach. frame. Qed.

Section Generator.

Variable compareSDKVersions : string -> string -> number.
Variable globals : Globals.
Variable hostClientType : hval.

Lemma extends_applyCapabilityReqs (newSupports capabilityReqs : hval) :
  extends (applyCapabilityReqs hostClientType newSupports capabilityReqs).
Proof. unfold applyCapabilityReqs. frame. Qed.

Lemma extends_applyVersion (v : string) (newSupports : hval) (versionNumber : string) :
  extends (applyVersion compareSDKVersions globals hostClientType v
             newSupports versionNumber).
Proof.
  unfold applyVersion. frame.
Qed.

Lemma extends_generate (v : string) :
  extends (generateBackCompatRuntimeConfig compareSDKVersions globals hostClientType v).
Proof.
  unfold generateBackCompatRuntimeConfig. frame. apply extends_applyVersion.
Qed.

End Generator.

(** *** Running the generator on the loaded module *)

Lemma run_bind {A B : Type} (m : M A) (f : A -> M B) (h h1 : heap) (a : A)
    (res : result B * heap) :
  m h = (Ok a, h1) -> f a h1 = res -> (m ≫= f) h = res.
Proof. intros Hm Hf. unfold mbind, M_bind. now rewrite Hm. Qed.

Lemma includes_strings (xs : list string) (x : string) :
  existsb (sameValueZero (HString x)) (map HString xs) = pureIncludes xs x.
Proof.
  unfold pureIncludes. induction xs as [|y xs IH]; [reflexivity|].
  cbn [map existsb sameValueZero]. now rewrite IH.
Qed.

Lemma run_includes (xs : list string) (x : string) (l : loc) (h : heap) :
  h !! l = Some (HArray (map HString xs)) ->
  includes (HRef l) (HString x) h = (Ok (pureIncludes xs x), h).
Proof.
  intros Hl. unfold includes, arrayElems, read, mbind, M_bind. rewrite Hl.
  unfold mret, M_ret. now rewrite includes_strings.
Qed.

(** One step of the run: a bind is run part by part, a loop element by
    element, a test is decided by what is known of it, and a computation
    without tests is evaluated. *)
Local Ltac run E :=
  lazymatch goal with
  | |- @mbind _ _ _ _ _ _ _ = _ => eapply run_bind; [run E | cbv beta; run E]
  | |- generateBackCompatRuntimeConfig _ _ _ _ _ = _ =>
      unfold generateBackCompatRuntimeConfig; run E
  | |- applyVersion _ _ _ _ _ _ _ = _ => unfold applyVersion; run E
  | |- applyCapabilityReqs _ _ _ _ = _ => unfold applyCapabilityReqs; run E
  | |- forEach _ _ _ _ = _ => unfold forEach; run E
  | |- foldM _ [] _ _ = _ => reflexivity
  | |- foldM _ (_ :: _) _ _ = _ => cbn [foldM]; run E
  | |- foldM _ ?l _ _ = _ =>
      let l' := eval vm_compute in l in change l with l'; run E
  | |- includes _ _ _ = _ =>
      first [ apply (run_includes (v1HostClientTypes E)); reflexivity
            | apply (run_includes [android E; teamsRoomsAndroid E;
                                   teamsPhones E; teamsDisplays E]); reflexivity ]
  | |- (if true then _ else _) _ = _ => cbv iota; run E
  | |- (if false then _ else _) _ = _ => cbv iota; run E
  | |- (if ?b then _ else _) _ = _ =>
      match goal with
      | Hb : b = _ |- _ => rewrite Hb; run E
      end
  | |- match ?s with Some _ => _ | None => _ end _ = _ =>
      let s' := eval vm_compute in s in change s with s'; cbv iota; run E
  | |- _ => vm_compute; reflexivity
  end.

(** On the store that loading runtime.ts leaves, the generator returns,
    what it returns reads back as the registry that the generator on values
    computes, and the baseline reads back the same before and after. *)
Lemma generate_on_loaded_module (E : HostClientTypeEnum)
    (cmp : string -> string -> number) (H v : string) :
  exists g h0 r h1,
    loadModule E [] = (Ok g, h0) /\
    generateBackCompatRuntimeConfig cmp g (HString H) v h0 = (Ok r, h1) /\
    reify 6 h1 r = Some (pureGenerate E cmp H v) /\
    reify 6 h0 (teamsRuntimeConfig g) = Some baselineLiteral /\
    reify 6 h1 (teamsRuntimeConfig g) = Some baselineLiteral.
Proof.
  replace (pureGenerate E cmp H v) with
    (obj [("apiVersion", VNumber 1); ("isLegacyTeams", VBool true);
          ("supports", supportsFor (locationUnlocked E cmp H v) (peopleUnlocked E cmp H v)
                         (joinedTeamsUnlocked E cmp H v))])
    by (rewrite <- generate_supportsFor; reflexivity).
  unfold locationUnlocked, peopleUnlocked, joinedTeamsUnlocked.
  destruct (ge0 (cmp v "1.9.0")) eqn:E1, (ge0 (cmp v "2.0.0")) eqn:E2,
    (ge0 (cmp v "2.0.1")) eqn:E3.
  all: destruct (pureIncludes (v1HostClientTypes E) H) eqn:I1.
  all: destruct (pureIncludes [android E; teamsRoomsAndroid E; teamsPhones E;
                               teamsDisplays E] H) eqn:I3.
  all: eexists; eexists; eexists; eexists;
    (split; [vm_compute; reflexivity|]);
    (split; [run E|]); repeat split; vm_compute; reflexivity.
Qed.

End HeapFacts.

(** C10: the generator writes into nothing that exists when it is called.
    From any store, with any references as the baseline and the table,
    whether it returns or throws, the store afterwards is the store before
    with new cells after it, so every cell of the baseline, of its nested
    [supports] tree and of the threshold table holds what it held. On the
    store that loading runtime.ts leaves, the call returns, its result reads
    back as the generated registry, and the baseline reads back the same
    before and after. *)
Theorem C10_generator_leaves_its_inputs (E : HostClientTypeEnum)
    (cmp : string -> string -> number) (H v : string) :
  (forall globals hostClientType h,
      let h' := snd (Heap.generateBackCompatRuntimeConfig cmp globals hostClientType v h) in
      (exists fresh, h' = h ++ fresh) /\
      (forall l c, h !! l = Some c -> h' !! l = Some c)) /\
  (exists g h0 r h1,
      Heap.loadModule E [] = (Ok g, h0) /\
      Heap.generateBackCompatRuntimeConfig cmp g (Heap.HString H) v h0 = (Ok r, h1) /\
      Heap.reify 6 h1 r = Some (generateBackCompatRuntimeConfig E cmp H v) /\
      Heap.reify 6 h0 (Heap.teamsRuntimeConfig g) = Some teamsRuntimeConfig /\
      Heap.reify 6 h1 (Heap.teamsRuntimeConfig g) = Some teamsRuntimeConfig).
Proof.
  split.
  - intros globals hostClientType h h'.
    destruct (HeapFacts.extends_generate cmp globals hostClientType v h) as [fresh Hf].
    fold h' in Hf. split; [now exists fresh|].
    intros l c Hl. rewrite Hf. now apply lookup_app_l_Some.
  - exact (HeapFacts.generate_on_loaded_module E cmp H v).
Qed.

(** * Further properties of the generator *)

Lemma lookupProp_In (k : string) (v : value) (props : list (string * value)) :
  NoDup (map fst props) -> In (k, v) props -> lookupProp k props = v.
Proof.
  induction props as [|[k' v'] props IH]; simpl; [contradiction|].
  intros Hnd [Heq|Hin].
  - injection Heq as -> ->. now rewrite String.eqb_refl.
  - apply NoDup_cons in Hnd as [Hk Hnd].
    destruct (String.eqb_spec k' k) as [->|_]; [|now apply IH].
    exfalso. apply Hk. apply list_elem_of_In. now apply (in_map fst _ (k, v)).
Qed.

Lemma lookupProp_object_In (k : string) (props : list (string * value)) :
  isObject (lookupProp k props) = true -> In (k, lookupProp k props) props.
Proof.
  induction props as [|[k' v'] props IH]; simpl; [discriminate|].
  destruct (String.eqb_spec k' k) as [->|_]; [now left | right; now apply IH].
Qed.

Lemma distinctKeys_props (fr : bool) (props : list (string * value)) :
  distinctKeys (VObject fr props) = true ->
  NoDup (map fst props) /\ forall k v, In (k, v) props -> distinctKeys v = true.
Proof.
  simpl. intros H. apply andb_true_iff in H as [Hnd Hall].
  split; [now apply bool_decide_eq_true in Hnd|].
  intros k v Hin. rewrite forallb_forall in Hall. exact (Hall _ Hin).
Qed.

Lemma objectPaths_cons (k : string) (path : list string) (fr : bool)
    (props : list (string * value)) :
  In (k :: path) (objectPaths (VObject fr props)) <->
  exists v, In (k, v) props /\ In path (objectPaths v).
Proof.
  simpl. split.
  - intros [Hnil|Hin]; [discriminate|].
    apply in_flat_map in Hin as [[k' v] [Hkv Hin]].
    apply in_map_iff in Hin as [p [Heq Hp]]. injection Heq as -> ->.
    now exists v.
  - intros [v [Hkv Hp]]. right. apply in_flat_map. exists (k, v).
    split; [exact Hkv|]. apply in_map_iff. now exists path.
Qed.

(** A tree holds an object at a path exactly when the path is listed. *)
Lemma objectPaths_spec (path : list string) (v : value) :
  distinctKeys v = true ->
  isObject (valueAt path v) = true <-> In path (objectPaths v).
Proof.
  revert v. induction path as [|k path IH]; intros v Hwf.
  - destruct v; simpl; split; try discriminate; try contradiction; auto.
  - destruct v as [| | | |fr props].
    1-4: simpl; rewrite valueAt_not_object by reflexivity;
      split; [discriminate | contradiction].
    apply distinctKeys_props in Hwf as [Hnd Hch].
    rewrite objectPaths_cons. simpl. unfold field. simpl. split.
    + intros Hobj. exists (lookupProp k props).
      assert (isObject (lookupProp k props) = true) as Hk.
      { destruct (isObject (lookupProp k props)) eqn:E; [reflexivity|].
        now rewrite valueAt_not_object in Hobj. }
      apply lookupProp_object_In in Hk. split; [exact Hk|].
      apply IH; [exact (Hch _ _ Hk) | exact Hobj].
    + intros [v [Hkv Hp]]. rewrite (lookupProp_In k v props Hnd Hkv).
      apply IH; [exact (Hch _ _ Hkv) | exact Hp].
Qed.

(** Two lists with the same elements, decided by running through both. *)
Lemma same_elements (l1 l2 : list (list string)) :
  forallb (fun p => bool_decide (p ∈ l2)) l1 = true ->
  forallb (fun p => bool_decide (p ∈ l1)) l2 = true ->
  forall p, In p l1 <-> In p l2.
Proof.
  intros H1 H2 p. rewrite forallb_forall in H1, H2. split; intros Hp.
  - apply list_elem_of_In. exact (bool_decide_eq_true_1 _ (H1 _ Hp)).
  - apply list_elem_of_In. exact (bool_decide_eq_true_1 _ (H2 _ Hp)).
Qed.

Lemma supportsFor_paths (loc people joined : bool) (path : list string) :
  isObject (valueAt path (supportsFor loc people joined)) = true <->
  In path (objectPaths (supports teamsRuntimeConfig) ++ unlockedPaths loc people joined).
Proof.
  rewrite objectPaths_spec by (destruct loc, people, joined; reflexivity).
  apply same_elements; destruct loc, people, joined; vm_compute; reflexivity.
Qed.

(** X1: for every declared version, host client type and comparator, the
    generated registry holds an object at a capability path exactly when the
    baseline does, or when the path is [location], [people] or
    [teams.fullTrust.joinedTeams] and the threshold entry that carries it
    applies. Nothing that the baseline supports is ever lost, and nothing
    else is ever gained. *)
Theorem X1_generated_paths (E : HostClientTypeEnum) (cmp : string -> string -> number)
    (H v : string) (path : list string) :
  isObject (valueAt path (supports (generateBackCompatRuntimeConfig E cmp H v))) = true <->
  isObject (valueAt path (supports teamsRuntimeConfig)) = true
  \/ (locationUnlocked E cmp H v = true /\ path = ["location"])
  \/ (peopleUnlocked E cmp H v = true /\ path = ["people"])
  \/ (joinedTeamsUnlocked E cmp H v = true /\ path = ["teams"; "fullTrust"; "joinedTeams"]).
Proof.
  rewrite generate_supportsFor, supportsFor_paths, in_app_iff.
  rewrite <- (objectPaths_spec path (supports teamsRuntimeConfig)) by reflexivity.
  unfold unlockedPaths.
  destruct (locationUnlocked E cmp H v), (peopleUnlocked E cmp H v),
    (joinedTeamsUnlocked E cmp H v); simpl; intuition congruence.
Qed.

Lemma generate_registry (E : HostClientTypeEnum) (cmp : string -> string -> number)
    (H v : string) :
  generateBackCompatRuntimeConfig E cmp H v
  = obj [("apiVersion", VNumber 1); ("isLegacyTeams", VBool true);
         ("supports", supportsFor (locationUnlocked E cmp H v) (peopleUnlocked E cmp H v)
                        (joinedTeamsUnlocked E cmp H v))].
Proof. rewrite <- generate_supportsFor. reflexivity. Qed.


(** The keys of the threshold table are the three versions. *)
Lemma threshold_tests (E : HostClientTypeEnum) (P : string -> Prop) :
  (forall k, In k (Object_keys (versionConstants E)) -> P k) ->
  P "1.9.0" /\ P "2.0.0" /\ P "2.0.1".
Proof. intros HP. repeat split; apply HP; simpl; auto. Qed.

(** X3: the declared version matters only through the thresholds it reaches:
    two versions for which [compareSDKVersions(v, k) >= 0] has the same
    answer on every key [k] of the table get the same registry. *)
Theorem X3_same_thresholds_same_registry (E : HostClientTypeEnum)
    (cmp : string -> string -> number) (H v1 v2 : string) :
  (forall k, In k (Object_keys (versionConstants E)) ->
             ge0 (cmp v1 k) = ge0 (cmp v2 k)) ->
  generateBackCompatRuntimeConfig E cmp H v1 = generateBackCompatRuntimeConfig E cmp H v2.
Proof.
  intros Hk. apply (threshold_tests E (fun k => ge0 (cmp v1 k) = ge0 (cmp v2 k))) in Hk
    as (H1 & H2 & H3).
  rewrite !generate_registry.
  unfold locationUnlocked, peopleUnlocked, joinedTeamsUnlocked.
  now rewrite H1, H2, H3.
Qed.

Lemma X3_same_thresholds_same_registry_witness :
  (forall k, In k (Object_keys (versionConstants namedHostClientTypes)) ->
             ge0 (Utils.compareSDKVersions "1.9.0" k)
             = ge0 (Utils.compareSDKVersions "1.12.7" k)) /\
  generateBackCompatRuntimeConfig namedHostClientTypes Utils.compareSDKVersions "ios" "1.9.0"
  = generateBackCompatRuntimeConfig namedHostClientTypes Utils.compareSDKVersions "ios" "1.12.7".
Proof.
  assert (forall k, In k (Object_keys (versionConstants namedHostClientTypes)) ->
                    ge0 (Utils.compareSDKVersions "1.9.0" k)
                    = ge0 (Utils.compareSDKVersions "1.12.7" k)) as Hk.
  { intros k Hin. simpl in Hin.
    repeat (destruct Hin as [<-|Hin]; [reflexivity|]). contradiction. }
  split; [exact Hk|].
  exact (X3_same_thresholds_same_registry namedHostClientTypes Utils.compareSDKVersions
           "ios" "1.9.0" "1.12.7" Hk).
Defined.

(** X4: a declared version that reaches no threshold, be it lower than all
    of them or a string for which the comparator answers [NaN], gets the
    baseline, whatever the host client type. *)
Theorem X4_no_threshold_reached (E : HostClientTypeEnum)
    (cmp : string -> string -> number) (H v : string) :
  (forall k, In k (Object_keys (versionConstants E)) -> ge0 (cmp v k) = false) ->
  generateBackCompatRuntimeConfig E cmp H v = teamsRuntimeConfig.
Proof.
  intros Hk. apply (threshold_tests E (fun k => ge0 (cmp v k) = false)) in Hk
    as (H1 & H2 & H3).
  rewrite generate_registry.
  unfold locationUnlocked, peopleUnlocked, joinedTeamsUnlocked.
  now rewrite H1, H2, H3.
Qed.

Lemma X4_no_threshold_reached_witness :
  Utils.compareSDKVersions "2.x" "1.9.0" = NaN /\
  (forall k, In k (Object_keys (versionConstants namedHostClientTypes)) ->
             ge0 (Utils.compareSDKVersions "2.x" k) = false) /\
  generateBackCompatRuntimeConfig namedHostClientTypes Utils.compareSDKVersions "android" "2.x"
  = teamsRuntimeConfig.
Proof.
  assert (forall k, In k (Object_keys (versionConstants namedHostClientTypes)) ->
                    ge0 (Utils.compareSDKVersions "2.x" k) = false) as Hk.
  { intros k Hin. simpl in Hin.
    repeat (destruct Hin as [<-|Hin]; [reflexivity|]). contradiction. }
  split; [reflexivity|]. split; [exact Hk|].
  exact (X4_no_threshold_reached namedHostClientTypes Utils.compareSDKVersions
           "android" "2.x" Hk).
Defined.

Lemma generated_capabilities (E : HostClientTypeEnum) (cmp : string -> string -> number)
    (H v : string) :
  let s := supports (generateBackCompatRuntimeConfig E cmp H v) in
  isObject (field "location" s) = locationUnlocked E cmp H v /\
  isObject (field "people" s) = peopleUnlocked E cmp H v /\
  isObject (valueAt ["teams"; "fullTrust"; "joinedTeams"] s) = joinedTeamsUnlocked E cmp H v.
Proof.
  intros s. subst s. rewrite generate_supportsFor.
  destruct (locationUnlocked E cmp H v), (peopleUnlocked E cmp H v),
    (joinedTeamsUnlocked E cmp H v); repeat split; reflexivity.
Qed.

(** The hosts that the 2.0.1 entry lists are among [v1HostClientTypes]. *)
Lemma android_hosts_are_v1 (E : HostClientTypeEnum) (H : string) :
  includes [android E; teamsRoomsAndroid E; teamsPhones E; teamsDisplays E] H = true ->
  includes (v1HostClientTypes E) H = true.
Proof.
  unfold includes, v1HostClientTypes. simpl. rewrite !orb_true_iff. tauto.
Qed.

(** X5: when the comparator orders the three thresholds as their numbers do
    (reaching 2.0.1 means reaching 2.0.0, and reaching 2.0.0 means reaching
    1.9.0), the capabilities come in order: a generated registry with
    [teams.fullTrust.joinedTeams] has [people], and one with [people] has
    [location]. The hosts of the 2.0.1 entry are all in [v1HostClientTypes]. *)
Theorem X5_capabilities_unlock_in_order (E : HostClientTypeEnum)
    (cmp : string -> string -> number) (H v : string) :
  (ge0 (cmp v "2.0.1") = true -> ge0 (cmp v "2.0.0") = true) ->
  (ge0 (cmp v "2.0.0") = true -> ge0 (cmp v "1.9.0") = true) ->
  let s := supports (generateBackCompatRuntimeConfig E cmp H v) in
  (isObject (valueAt ["teams"; "fullTrust"; "joinedTeams"] s) = true ->
   isObject (field "people" s) = true) /\
  (isObject (field "people" s) = true -> isObject (field "location" s) = true).
Proof.
  intros H21 H20 s. subst s.
  destruct (generated_capabilities E cmp H v) as (-> & -> & ->).
  unfold locationUnlocked, peopleUnlocked, joinedTeamsUnlocked.
  rewrite !andb_true_iff. split.
  - intros [Hv Hh]. split; [exact (H21 Hv) | exact (android_hosts_are_v1 E H Hh)].
  - intros [Hv Hh]. split; [exact (H20 Hv) | exact Hh].
Qed.

Lemma X5_capabilities_unlock_in_order_witness :
  let s := supports (generateBackCompatRuntimeConfig namedHostClientTypes
                       Utils.compareSDKVersions "teamsPhones" "2.0.1") in
  (ge0 (Utils.compareSDKVersions "2.0.1" "2.0.1") = true ->
   ge0 (Utils.compareSDKVersions "2.0.1" "2.0.0") = true) /\
  (ge0 (Utils.compareSDKVersions "2.0.1" "2.0.0") = true ->
   ge0 (Utils.compareSDKVersions "2.0.1" "1.9.0") = true) /\
  isObject (valueAt ["teams"; "fullTrust"; "joinedTeams"] s) = true /\
  isObject (field "people" s) = true /\
  isObject (field "location" s) = true.
Proof.
  intros s.
  pose proof (X5_capabilities_unlock_in_order namedHostClientTypes
                Utils.compareSDKVersions "teamsPhones" "2.0.1"
                (fun _ => eq_refl) (fun _ => eq_refl)) as [Hj Hp].
  split; [intros _; reflexivity|]. split; [intros _; reflexivity|].
  split; [reflexivity|]. split; [exact (Hj eq_refl) | exact (Hp (Hj eq_refl))].
Defined.

(** ** The spread *)

Lemma lookupProp_setProp (k k' : string) (v : value) (o : list (string * value)) :
  lookupProp k' (setProp k v o) = if String.eqb k k' then v else lookupProp k' o.
Proof.
  induction o as [|[k1 v1] o IH]; simpl; [reflexivity|].
  destruct (String.eqb_spec k1 k) as [->|Hne]; simpl.
  - destruct (String.eqb_spec k k'); reflexivity.
  - rewrite IH. destruct (String.eqb_spec k1 k') as [->|_]; [|reflexivity].
    destruct (String.eqb_spec k k'); [congruence | reflexivity].
Qed.

Lemma hasProp_false (k : string) (o : list (string * value)) :
  hasProp k o = false -> lookupProp k o = VUndefined.
Proof.
  induction o as [|[k1 v1] o IH]; simpl; [reflexivity|].
  destruct (String.eqb k1 k); [discriminate | exact IH].
Qed.

Lemma hasProp_keys (k : string) (o : list (string * value)) :
  hasProp k o = true <-> In k (map fst o).
Proof.
  induction o as [|[k1 v1] o IH]; simpl; [split; [discriminate | contradiction]|].
  rewrite orb_true_iff, IH. destruct (String.eqb_spec k1 k); intuition congruence.
Qed.

Lemma lookupProp_copyProps (k : string) (dst src : list (string * value)) :
  NoDup (map fst src) ->
  lookupProp k (copyProps dst src)
  = if hasProp k src then lookupProp k src else lookupProp k dst.
Proof.
  unfold copyProps. revert dst.
  induction src as [|[k1 v1] src IH]; intros dst Hnd; simpl; [reflexivity|].
  apply NoDup_cons in Hnd as [Hk1 Hnd]. rewrite (IH _ Hnd), lookupProp_setProp.
  destruct (String.eqb_spec k1 k) as [->|_]; simpl; [|reflexivity].
  destruct (hasProp k src) eqn:Hhas; [|reflexivity].
  exfalso. apply Hk1. apply list_elem_of_In. now apply hasProp_keys.
Qed.

(** X6: the object [{ ...a, ...b }] that the generator builds at each step
    holds, under a key of [b], what [b] holds there, whole, and under any
    other key what [a] holds; the copy [{ ...a }] holds what [a] holds. The
    merge goes one level down and no further. *)
Theorem X6_spread_is_a_shallow_right_biased_merge (a b : value) (k : string) :
  NoDup (map fst (propsOf a)) ->
  NoDup (map fst (propsOf b)) ->
  field k (spread2 a b) = (if hasProp k (propsOf b) then field k b else field k a) /\
  field k (spread1 a) = field k a.
Proof.
  intros Ha Hb. unfold spread2, spread1, field. simpl.
  assert (lookupProp k (copyProps [] (propsOf a)) = lookupProp k (propsOf a)) as H1.
  { rewrite lookupProp_copyProps by exact Ha.
    destruct (hasProp k (propsOf a)) eqn:Hhas; [reflexivity|].
    simpl. symmetry. now apply hasProp_false. }
  split; [|exact H1]. rewrite lookupProp_copyProps by exact Hb. now rewrite H1.
Qed.

Lemma X6_spread_is_a_shallow_right_biased_merge_witness :
  let a := obj [("teams", obj [("fullTrust", obj [])]); ("video", obj [])] in
  let b := obj [("teams", obj [("joinedTeams", obj [])])] in
  NoDup (map fst (propsOf a)) /\ NoDup (map fst (propsOf b)) /\
  field "teams" (spread2 a b) = obj [("joinedTeams", obj [])] /\
  field "video" (spread2 a b) = obj [].
Proof.
  intros a b.
  assert (NoDup (map fst (propsOf a))) as Ha
    by (apply (bool_decide_eq_true_1 (NoDup (map fst (propsOf a)))); reflexivity).
  assert (NoDup (map fst (propsOf b))) as Hb
    by (apply (bool_decide_eq_true_1 (NoDup (map fst (propsOf b)))); reflexivity).
  split; [exact Ha|]. split; [exact Hb|]. split.
  - exact (proj1 (X6_spread_is_a_shallow_right_biased_merge a b "teams" Ha Hb)).
  - exact (proj1 (X6_spread_is_a_shallow_right_biased_merge a b "video" Ha Hb)).
Defined.

(** * Further properties of the generator over the store *)

Module HeapExtras.

Local Abbreviation pureIncludes := includes.
Local Abbreviation baselineLiteral := teamsRuntimeConfig.

Import Heap HeapSpec.

Lemma bind_Ok {A B : Type} (m : M A) (f : A -> M B) (h h' : heap) (b : B) :
  (m ≫= f) h = (Ok b, h') ->
  exists a h1, m h = (Ok a, h1) /\ f a h1 = (Ok b, h').
Proof.
  unfold mbind, M_bind. destruct (m h) as [[a|e] h1]; [|discriminate].
  intros Hf. now exists a, h1.
Qed.

Lemma readsOnly_ret {A : Type} (a : A) : readsOnly (mret a).
Proof. intros h. reflexivity. Qed.

Lemma readsOnly_throw {A : Type} (e : exn) : readsOnly (throw e : M A).
Proof. intros h. reflexivity. Qed.

Lemma readsOnly_read (l : loc) : readsOnly (read l).
Proof. intros h. unfold read. now destruct (h !! l). Qed.

Lemma readsOnly_bind {A B : Type} (m : M A) (f : A -> M B) :
  readsOnly m -> (forall a, readsOnly (f a)) -> readsOnly (m ≫= f).
Proof.
  intros Hm Hf h. unfold mbind, M_bind. specialize (Hm h).
  destruct (m h) as [[a|e] h1]; simpl in Hm; subst h1; [apply Hf | reflexivity].
Qed.

Create HintDb reads.

#[local] Hint Resolve readsOnly_ret readsOnly_throw readsOnly_read : reads.

Local Ltac reads :=
  repeat first
    [ apply readsOnly_bind; [|intros ?]
    | solve [auto with reads]
    | match goal with
      | |- readsOnly (match ?x with _ => _ end) => destruct x
      end ].

Lemma readsOnly_ownProps (v : hval) : readsOnly (ownProps v).
Proof. unfold ownProps. reads. Qed.

Lemma readsOnly_getProp (k : string) (v : hval) : readsOnly (getProp k v).
Proof. unfold getProp. reads. Qed.

Lemma readsOnly_arrayElems (v : hval) : readsOnly (arrayElems v).
Proof. unfold arrayElems. reads. Qed.

#[local] Hint Resolve readsOnly_ownProps readsOnly_getProp readsOnly_arrayElems : reads.

Lemma readsOnly_Object_keys (v : hval) : readsOnly (Object_keys v).
Proof. unfold Object_keys. reads. Qed.

Lemma readsOnly_includes (arr x : hval) : readsOnly (includes arr x).
Proof. unfold includes. reads. Qed.

Lemma readsOnly_Ok {A : Type} (m : M A) (h h' : heap) (a : A) :
  readsOnly m -> m h = (Ok a, h') -> h' = h.
Proof. intros Hm Hr. specialize (Hm h). now rewrite Hr in Hm. Qed.

Lemma alloc_Ok (c : cell) (h h' : heap) (r : hval) :
  alloc c h = (Ok r, h') -> r = HRef (length h) /\ h' = h ++ [c].
Proof. unfold alloc. intros H. now injection H as <- <-. Qed.

Lemma freshObject_alloc (h0 h : heap) (props : list (string * hval)) :
  length h0 <= length h ->
  freshObject h0 (HRef (length h)) (h ++ [HObject false props]).
Proof.
  intros Hle. exists (length h), props. split; [reflexivity|]. split; [exact Hle|].
  apply list_lookup_middle. reflexivity.
Qed.

Lemma freshObject_length (h0 : heap) (x : hval) (h : heap) :
  freshObject h0 x h -> length h0 <= length h.
Proof.
  intros (s & props & _ & Hle & Hs). apply lookup_lt_Some in Hs. lia.
Qed.

Lemma spread1_Ok (a : hval) (h h' : heap) (r : hval) :
  spread1 a h = (Ok r, h') ->
  exists props, r = HRef (length h) /\ h' = h ++ [HObject false props].
Proof.
  unfold spread1. intros H. apply bind_Ok in H as (pa & h1 & Ha & H).
  apply readsOnly_Ok in Ha; [|apply readsOnly_ownProps]. subst h1.
  apply alloc_Ok in H as [-> ->]. eauto.
Qed.

Lemma spread2_Ok (a b : hval) (h h' : heap) (r : hval) :
  spread2 a b h = (Ok r, h') ->
  exists props, r = HRef (length h) /\ h' = h ++ [HObject false props].
Proof.
  unfold spread2. intros H. apply bind_Ok in H as (pa & h1 & Ha & H).
  apply readsOnly_Ok in Ha; [|apply readsOnly_ownProps]. subst h1.
  apply bind_Ok in H as (pb & h1 & Hb & H).
  apply readsOnly_Ok in Hb; [|apply readsOnly_ownProps]. subst h1.
  apply alloc_Ok in H as [-> ->]. eauto.
Qed.

Lemma foldM_invariant {A B : Type} (I : B -> heap -> Prop) (f : B -> A -> M B)
    (l : list A) :
  (forall b a h b' h', I b h -> f b a h = (Ok b', h') -> I b' h') ->
  forall b h b' h', I b h -> foldM f l b h = (Ok b', h') -> I b' h'.
Proof.
  intros Hf. induction l as [|a l IH]; intros b h b' h' Hb Hrun; simpl in Hrun.
  - injection Hrun as <- <-. exact Hb.
  - apply bind_Ok in Hrun as (b1 & h1 & H1 & Hrun).
    eapply IH; [|exact Hrun]. eapply Hf; [exact Hb | exact H1].
Qed.

Section Generator.

Variable compareSDKVersions : string -> string -> number.
Variable globals : Globals.
Variable hostClientType : hval.

Lemma applyCapabilityReqs_fresh (h0 : heap) (newSupports capabilityReqs : hval)
    (h h' : heap) (r : hval) :
  freshObject h0 newSupports h ->
  applyCapabilityReqs hostClientType newSupports capabilityReqs h = (Ok r, h') ->
  freshObject h0 r h'.
Proof.
  intros Hinv H. unfold applyCapabilityReqs in H.
  apply bind_Ok in H as (types & h1 & Ht & H).
  apply readsOnly_Ok in Ht; [|apply readsOnly_getProp]. subst h1.
  apply bind_Ok in H as (listed & h1 & Hl & H).
  apply readsOnly_Ok in Hl; [|apply readsOnly_includes]. subst h1.
  destruct listed.
  - apply bind_Ok in H as (fragment & h1 & Hf & H).
    apply readsOnly_Ok in Hf; [|apply readsOnly_getProp]. subst h1.
    apply spread2_Ok in H as (props & -> & ->).
    apply freshObject_alloc. now apply freshObject_length in Hinv.
  - injection H as <- <-. exact Hinv.
Qed.

Lemma forEach_fresh (h0 : heap) (arr newSupports : hval) (h h' : heap) (r : hval) :
  freshObject h0 newSupports h ->
  forEach arr (applyCapabilityReqs hostClientType) newSupports h = (Ok r, h') ->
  freshObject h0 r h'.
Proof.
  intros Hinv H. unfold forEach in H.
  apply bind_Ok in H as (elems & h1 & He & H).
  apply readsOnly_Ok in He; [|apply readsOnly_arrayElems]. subst h1.
  revert H. apply (foldM_invariant (freshObject h0)); [|exact Hinv].
  intros b i hb b' hb' Hb Hstep.
  apply bind_Ok in Hstep as (elems' & h1 & He' & Hstep).
  apply readsOnly_Ok in He'; [|apply readsOnly_arrayElems]. subst h1.
  destruct (elems' !! i) as [x|].
  - eapply applyCapabilityReqs_fresh; [exact Hb | exact Hstep].
  - injection Hstep as <- <-. exact Hb.
Qed.

Lemma applyVersion_fresh (h0 : heap) (v : string) (newSupports : hval)
    (versionNumber : string) (h h' : heap) (r : hval) :
  freshObject h0 newSupports h ->
  applyVersion compareSDKVersions globals hostClientType v newSupports versionNumber h
  = (Ok r, h') ->
  freshObject h0 r h'.
Proof.
  intros Hinv H. unfold applyVersion in H.
  destruct (ge0 (compareSDKVersions v versionNumber)).
  - apply bind_Ok in H as (reqs & h1 & Hr & H).
    apply readsOnly_Ok in Hr; [|apply readsOnly_getProp]. subst h1.
    eapply forEach_fresh; [exact Hinv | exact H].
  - injection H as <- <-. exact Hinv.
Qed.

(** X7: from any store, when the generator returns, the registry it returns
    and the [supports] object of that registry are cells that did not exist
    before the call, both unfrozen, and the registry has exactly the
    properties [apiVersion] 1, [isLegacyTeams] true and [supports]. *)
Theorem X7_generated_registry_is_new (v : string) (h h' : heap) (r : hval) :
  generateBackCompatRuntimeConfig compareSDKVersions globals hostClientType v h = (Ok r, h') ->
  exists l s props,
    r = HRef l /\ length h <= s /\ s < l /\
    h' !! l = Some (HObject false [("apiVersion", HNumber 1);
                                   ("isLegacyTeams", HBool true);
                                   ("supports", HRef s)]) /\
    h' !! s = Some (HObject false props).
Proof.
  intros H. unfold generateBackCompatRuntimeConfig in H.
  apply bind_Ok in H as (baseline & h1 & Hb & H).
  apply readsOnly_Ok in Hb; [|apply readsOnly_getProp]. subst h1.
  apply bind_Ok in H as (s0 & h1 & Hs & H).
  apply spread1_Ok in Hs as (props0 & -> & ->).
  apply bind_Ok in H as (keys & h2 & Hk & H).
  apply readsOnly_Ok in Hk; [|apply readsOnly_Object_keys]. subst h2.
  apply bind_Ok in H as (s1 & h2 & Hfold & H).
  assert (freshObject h s1 h2) as (s & props & -> & Hle & Hcell).
  { revert Hfold. apply (foldM_invariant (freshObject h)).
    - intros b k hb b' hb' Hinv Hstep. eapply applyVersion_fresh; eassumption.
    - now apply freshObject_alloc. }
  apply alloc_Ok in H as [-> ->].
  exists (length h2), s, props. split; [reflexivity|]. split; [exact Hle|].
  split; [now apply lookup_lt_Some in Hcell|]. split.
  - apply list_lookup_middle. reflexivity.
  - now apply lookup_app_l_Some.
Qed.

End Generator.

Lemma X7_generated_registry_is_new_witness :
  let loaded := loadModule namedHostClientTypes [] in
  let g := {| teamsRuntimeConfig := HRef 29; versionConstants := HRef 46 |} in
  let ran := generateBackCompatRuntimeConfig Utils.compareSDKVersions g
               (HString "android") "2.0.1" (snd loaded) in
  fst loaded = Ok g /\ length (snd loaded) = 47 /\
  fst ran = Ok (HRef 51) /\
  exists l s props,
    HRef 51 = HRef l /\ 47 <= s /\ s < l /\
    snd ran !! l = Some (HObject false [("apiVersion", HNumber 1);
                                        ("isLegacyTeams", HBool true);
                                        ("supports", HRef s)]) /\
    snd ran !! s = Some (HObject false props).
Proof.
  intros loaded g ran.
  split; [reflexivity|]. split; [reflexivity|]. split; [reflexivity|].
  apply (X7_generated_registry_is_new Utils.compareSDKVersions g (HString "android")
           "2.0.1" (snd loaded) (snd ran) (HRef 51)).
  vm_compute. reflexivity.
Defined.

(** *** Running the generator on the loaded module, once more *)

Lemma sharedWith_spec (n : nat) (joined : bool) (rp bp : list (string * hval)) :
  forallb (sharedWith n joined rp) bp = true ->
  forall k x, In (k, x) bp ->
    (exists l, x = HRef l /\ l < n) /\
    ((k = "teams" /\ joined = true) \/ lookupProp k rp = x).
Proof.
  intros Hall k x Hin. rewrite forallb_forall in Hall. specialize (Hall _ Hin).
  unfold sharedWith in Hall. simpl in Hall.
  apply andb_true_iff in Hall as [Hx Hk].
  destruct x as [| | | | |l]; try discriminate. apply Nat.ltb_lt in Hx.
  split; [now exists l|].
  apply orb_true_iff in Hk as [Hk|Hk].
  - apply andb_true_iff in Hk as [Hk Hj]. apply String.eqb_eq in Hk. now left.
  - right. destruct (lookupProp k rp); try discriminate.
    simpl in Hk. apply Nat.eqb_eq in Hk. now subst.
Qed.

Local Ltac exec E :=
  lazymatch goal with
  | |- @mbind _ _ _ _ _ _ _ = _ => eapply HeapFacts.run_bind; [exec E | cbv beta; exec E]
  | |- generateBackCompatRuntimeConfig _ _ _ _ _ = _ =>
      unfold generateBackCompatRuntimeConfig; exec E
  | |- applyVersion _ _ _ _ _ _ _ = _ => unfold applyVersion; exec E
  | |- applyCapabilityReqs _ _ _ _ = _ => unfold applyCapabilityReqs; exec E
  | |- forEach _ _ _ _ = _ => unfold forEach; exec E
  | |- foldM _ [] _ _ = _ => reflexivity
  | |- foldM _ (_ :: _) _ _ = _ => cbn [foldM]; exec E
  | |- foldM _ ?l _ _ = _ =>
      let l' := eval vm_compute in l in change l with l'; exec E
  | |- includes _ (HString _) _ = _ =>
      first [ apply (HeapFacts.run_includes (v1HostClientTypes E)); reflexivity
            | apply (HeapFacts.run_includes [android E; teamsRoomsAndroid E;
                                             teamsPhones E; teamsDisplays E]); reflexivity ]
  | |- (if true then _ else _) _ = _ => cbv iota; exec E
  | |- (if false then _ else _) _ = _ => cbv iota; exec E
  | |- (if ?b then _ else _) _ = _ =>
      match goal with
      | Hb : b = _ |- _ => rewrite Hb; exec E
      end
  | |- match ?s with Some _ => _ | None => _ end _ = _ =>
      let s' := eval vm_compute in s in change s with s'; cbv iota; exec E
  | |- _ => vm_compute; reflexivity
  end.

(** X8: the copy of the baseline is one level deep. On the store that loading
    runtime.ts leaves, every capability of the baseline's [supports] holds a
    reference to a cell of the module, and the generated [supports] holds
    the very same reference under that capability, except [teams] when the
    2.0.1 entry applies: the nested capability objects are shared with
    [teamsRuntimeConfig], not copied. *)
Theorem X8_generated_registry_shares_nested_objects (E : HostClientTypeEnum)
    (cmp : string -> string -> number) (H v : string) :
  exists g h0 r h1 rp bp,
    loadModule E [] = (Ok g, h0) /\
    generateBackCompatRuntimeConfig cmp g (HString H) v h0 = (Ok r, h1) /\
    fst (supportsProps r h1) = Ok rp /\
    fst (supportsProps (teamsRuntimeConfig g) h1) = Ok bp /\
    map fst bp = map fst (propsOf (supports baselineLiteral)) /\
    forall k x, In (k, x) bp ->
      (exists l, x = HRef l /\ l < length h0) /\
      ((k = "teams" /\ joinedTeamsUnlocked E cmp H v = true) \/ lookupProp k rp = x).
Proof.
  unfold joinedTeamsUnlocked.
  destruct (ge0 (cmp v "1.9.0")) eqn:E1, (ge0 (cmp v "2.0.0")) eqn:E2,
    (ge0 (cmp v "2.0.1")) eqn:E3.
  all: destruct (pureIncludes (v1HostClientTypes E) H) eqn:I1.
  all: destruct (pureIncludes [android E; teamsRoomsAndroid E; teamsPhones E;
                               teamsDisplays E] H) eqn:I3.
  all: eexists; eexists; eexists; eexists; eexists; eexists;
    (split; [vm_compute; reflexivity|]);
    (split; [exec E|]);
    (split; [vm_compute; reflexivity|]);
    (split; [vm_compute; reflexivity|]);
    (split; [reflexivity|]);
    apply sharedWith_spec; vm_compute; reflexivity.
Qed.

(** X9: while [GlobalVars.hostClientType] is still [undefined], no threshold
    entry lists it: on the store that loading runtime.ts leaves the
    generator returns, for every declared version and comparator, a registry
    that reads back as the baseline. *)
Theorem X9_undefined_host_gets_baseline (E : HostClientTypeEnum)
    (cmp : string -> string -> number) (v : string) :
  exists g h0 r h1,
    loadModule E [] = (Ok g, h0) /\
    generateBackCompatRuntimeConfig cmp g HUndefined v h0 = (Ok r, h1) /\
    reify 6 h1 r = Some baselineLiteral.
Proof.
  destruct (ge0 (cmp v "1.9.0")) eqn:E1, (ge0 (cmp v "2.0.0")) eqn:E2,
    (ge0 (cmp v "2.0.1")) eqn:E3.
  all: eexists; eexists; eexists; eexists;
    (split; [vm_compute; reflexivity|]);
    (split; [exec E|]); vm_compute; reflexivity.
Qed.

End HeapExtras.
